(** * Scoring device: a shallow embedding of [scorer.cpp]

    The sketch drives four common-anode seven-segment displays from two
    push-buttons on an Arduino Mega.  The embedding below keeps the shape
    of the source: the [Player] struct, the four globals, the segment
    table and the functions [displayFirstDigit], [displaySecondDigit],
    [blinkWinner], [reset_game], [handle_button], [setup] and [loop].

    Hardware effects are explicit: the board is a record holding the pin
    direction registers, the last level driven on each pin and the
    chronological trace of output actions and blocking delays.  What the
    environment supplies ([digitalRead] and [millis]) is an argument of
    the function that consumes it. *)

From stdpp Require Import base numbers list vector gmap.

Local Open Scope Z_scope.

(** ** Machine integers of the ATmega2560 *)

(** [uint8_t] and [unsigned long] (32 bits on AVR) values are kept as [Z]
    and reduced explicitly wherever the source stores into such a type. *)
Definition u8 (z : Z) : Z := z mod 256.
Definition u32 (z : Z) : Z := z mod 2 ^ 32.

(** ** Preprocessor macros *)

Definition P1_BUTTON : Z := 10.
Definition P2_BUTTON : Z := 9.
Definition RESET : Z := 11.

Definition BUTTON_HOLD_MS : Z := 3000.
Definition SCORE_BLINK_MS : Z := 500.
Definition BUTTON_PRESS_LENGTH : Z := 200.
Definition UP_TO_SCORE : Z := 21.

Definition SEVEN_SEGMENTS : nat := 7.
Definition NUM_DIGITS : Z := 10.

Inductive Level := LOW | HIGH.
Inductive PinMode := INPUT | OUTPUT.

#[global] Instance Level_eq_dec : EqDecision Level.
Proof. solve_decision. Defined.
#[global] Instance PinMode_eq_dec : EqDecision PinMode.
Proof. solve_decision. Defined.
#[global] Instance Level_inhabited : Inhabited Level := populate HIGH.

(** [COMMON_ANODE] is defined, so a segment is lit by the low level. *)
Definition ON : Level := LOW.
Definition OFF : Level := HIGH.

(** ** Type definitions *)

Record Player := mkPlayer {
  d1_pins : vec Z SEVEN_SEGMENTS;   (* pin numbers of the tens display *)
  d2_pins : vec Z SEVEN_SEGMENTS;   (* pin numbers of the ones display *)
  d1_num : Z;                       (* uint8_t, tens place *)
  d2_num : Z;                       (* uint8_t, ones place *)
  start : Z;                        (* unsigned long, start of the hold *)
  button_state : bool;
  prev_button_state : bool
}.

(** ** The board *)

Inductive Event :=
  | EvPinMode (pin : Z) (m : PinMode)
  | EvWrite (pin : Z) (l : Level)
  | EvDelay (ms : Z).

#[global] Instance Event_eq_dec : EqDecision Event.
Proof. solve_decision. Defined.

Record Board := mkBoard {
  pin_modes : gmap Z PinMode;    (* pins whose direction was configured *)
  pin_levels : gmap Z Level;     (* last level written to each pin *)
  trace : list Event             (* output actions, oldest first *)
}.

(** ** Global variables *)

Record World := mkWorld {
  p1 : Player;
  p2 : Player;
  winner_found : bool;
  p1_is_winner : bool;
  board : Board
}.

(** A [Player&] argument is one of the two globals. *)
Inductive PlayerRef := RefP1 | RefP2.

#[global] Instance PlayerRef_eq_dec : EqDecision PlayerRef.
Proof. solve_decision. Defined.

Definition player (r : PlayerRef) (w : World) : Player :=
  match r with RefP1 => p1 w | RefP2 => p2 w end.

Definition set_player (r : PlayerRef) (p : Player) (w : World) : World :=
  match r with
  | RefP1 => mkWorld p (p2 w) (winner_found w) (p1_is_winner w) (board w)
  | RefP2 => mkWorld (p1 w) p (winner_found w) (p1_is_winner w) (board w)
  end.

Definition other (r : PlayerRef) : PlayerRef :=
  match r with RefP1 => RefP2 | RefP2 => RefP1 end.

Definition set_board (b : Board) (w : World) : World :=
  mkWorld (p1 w) (p2 w) (winner_found w) (p1_is_winner w) b.

(** ** Arduino primitives *)

Definition emit (e : Event) (b : Board) : Board :=
  mkBoard (pin_modes b) (pin_levels b) (trace b ++ [e]).

Definition pinMode (pin : Z) (m : PinMode) (w : World) : World :=
  let b := board w in
  set_board (emit (EvPinMode pin m)
               (mkBoard (<[pin := m]> (pin_modes b)) (pin_levels b) (trace b))) w.

Definition digitalWrite (pin : Z) (l : Level) (w : World) : World :=
  let b := board w in
  set_board (emit (EvWrite pin l)
               (mkBoard (pin_modes b) (<[pin := l]> (pin_levels b)) (trace b))) w.

Definition delay (ms : Z) (w : World) : World :=
  set_board (emit (EvDelay ms) (board w)) w.

(** [for (int i = 0; i < SEVEN_SEGMENTS; i++)] *)
Definition segment_indices : list (fin SEVEN_SEGMENTS) :=
  [0; 1; 2; 3; 4; 5; 6]%fin.

Definition for_each {A} (l : list A) (body : A → World → World)
    (w : World) : World :=
  foldl (λ w i, body i w) w l.

(** ** Segment level values to display digits *)

Definition displayLEDs : list (vec Level SEVEN_SEGMENTS) :=
  [ [# ON; ON; ON; ON; ON; ON; OFF];       (* 0 *)
    [# OFF; ON; ON; ON; ON; ON; OFF];      (* 1 *)
    [# ON; ON; OFF; ON; ON; OFF; ON];      (* 2 *)
    [# ON; ON; ON; ON; OFF; OFF; ON];      (* 3 *)
    [# OFF; ON; ON; OFF; OFF; ON; ON];     (* 4 *)
    [# ON; OFF; ON; ON; OFF; ON; ON];      (* 5 *)
    [# ON; OFF; ON; ON; ON; ON; ON];       (* 6 *)
    [# ON; ON; ON; OFF; OFF; OFF; OFF];    (* 7 *)
    [# ON; ON; ON; ON; ON; ON; ON];        (* 8 *)
    [# ON; ON; ON; ON; OFF; ON; ON] ].     (* 9 *)

(** [displayLEDs[num][i]]; the callers index only under the range guard. *)
Definition displayLEDs_at (num : Z) (i : fin SEVEN_SEGMENTS) : Level :=
  match displayLEDs !! Z.to_nat num with
  | Some row => row !!! i
  | None => OFF
  end.

(** ** Functions *)

Definition displayFirstDigit (r : PlayerRef) (num : Z) : World → World :=
  for_each segment_indices (λ i w,
    if bool_decide (num < 0) || bool_decide (num >= NUM_DIGITS)
    then digitalWrite (d1_pins (player r w) !!! i) OFF w
    else digitalWrite (d1_pins (player r w) !!! i) (displayLEDs_at num i) w).

Definition displaySecondDigit (r : PlayerRef) (num : Z) : World → World :=
  for_each segment_indices (λ i w,
    if bool_decide (num < 0) || bool_decide (num >= NUM_DIGITS)
    then digitalWrite (d2_pins (player r w) !!! i) OFF w
    else digitalWrite (d2_pins (player r w) !!! i) (displayLEDs_at num i) w).

Definition blinkWinner (r : PlayerRef) (w : World) : World :=
  let w := displayFirstDigit r (-1) w in
  let w := displaySecondDigit r (-1) w in
  let w := delay SCORE_BLINK_MS w in
  let w := displayFirstDigit r (d1_num (player r w)) w in
  let w := displaySecondDigit r (d2_num (player r w)) w in
  delay SCORE_BLINK_MS w.

Definition reset_game (w : World) : World :=
  pinMode RESET OUTPUT w.

(** What the outside world presents while one [handle_button] call runs:
    the level on every input pin and the millisecond counter. *)
Record Env := mkEnv {
  input_level : Z → bool;
  clock : Z
}.

Definition digitalRead (e : Env) (pin : Z) : bool := input_level e pin.
Definition millis (e : Env) : Z := u32 (clock e).

(** Field assignments on a [Player]. *)
Definition set_d1_num (v : Z) (p : Player) : Player :=
  mkPlayer (d1_pins p) (d2_pins p) v (d2_num p) (start p)
           (button_state p) (prev_button_state p).
Definition set_d2_num (v : Z) (p : Player) : Player :=
  mkPlayer (d1_pins p) (d2_pins p) (d1_num p) v (start p)
           (button_state p) (prev_button_state p).
Definition set_start (v : Z) (p : Player) : Player :=
  mkPlayer (d1_pins p) (d2_pins p) (d1_num p) (d2_num p) v
           (button_state p) (prev_button_state p).
Definition set_button_state (v : bool) (p : Player) : Player :=
  mkPlayer (d1_pins p) (d2_pins p) (d1_num p) (d2_num p) (start p)
           v (prev_button_state p).
Definition set_prev_button_state (v : bool) (p : Player) : Player :=
  mkPlayer (d1_pins p) (d2_pins p) (d1_num p) (d2_num p) (start p)
           (button_state p) v.

Definition update (r : PlayerRef) (f : Player → Player) (w : World) : World :=
  set_player r (f (player r w)) w.

Definition button_pin (r : PlayerRef) : Z :=
  match r with RefP1 => P1_BUTTON | RefP2 => P2_BUTTON end.

Definition handle_button (r : PlayerRef) (e : Env) (w : World) : World :=
  (* DETERMINE BUTTON STATE *)
  let w := update r (set_button_state (digitalRead e (button_pin r))) w in
  let w :=
    (* ON BUTTON PRESS *)
    if button_state (player r w) && negb (prev_button_state (player r w)) then
      let w := update r (set_start (millis e)) w in
      delay BUTTON_PRESS_LENGTH w
    (* ON BUTTON HOLD *)
    else if button_state (player r w) && prev_button_state (player r w) then
      if bool_decide (u32 (millis e - start (player r w)) >= BUTTON_HOLD_MS)
      then reset_game w
      else w
    (* ON BUTTON RELEASE *)
    else if negb (button_state (player r w)) && prev_button_state (player r w) then
      if negb (winner_found w) then
        (* INCREMENT SCORE *)
        let w := update r (λ p, set_d2_num (u8 (d2_num p + 1)) p) w in
        if bool_decide (d2_num (player r w) >= NUM_DIGITS) then
          let w := update r (λ p, set_d1_num (u8 (d1_num p + 1)) p) w in
          update r (set_d2_num 0) w
        else w
      else w
    else w in
  update r (λ p, set_prev_button_state (button_state p) p) w.

(** ** setup() *)

Definition set_winner_found (v : bool) (w : World) : World :=
  mkWorld (p1 w) (p2 w) v (p1_is_winner w) (board w).
Definition set_p1_is_winner (v : bool) (w : World) : World :=
  mkWorld (p1 w) (p2 w) (winner_found w) v (board w).

Definition p1_init : Player :=
  mkPlayer [# 2; 3; 4; 5; 6; 7; 8] [# 14; 15; 16; 17; 18; 19; 20]
           0 0 0 false false.
Definition p2_init : Player :=
  mkPlayer [# 22; 24; 26; 28; 30; 32; 34] [# 23; 25; 27; 29; 31; 33; 35]
           0 0 0 false false.

Definition setup (w : World) : World :=
  (* INITIALIZE GLOBALS *)
  let w := set_winner_found false w in
  let w := set_p1_is_winner false w in
  let w := set_player RefP1 p1_init w in
  let w := set_player RefP2 p2_init w in
  (* SET OUTPUT PINS *)
  let w := for_each segment_indices (λ i w,
             let w := pinMode (d1_pins (p1 w) !!! i) OUTPUT w in
             let w := pinMode (d2_pins (p1 w) !!! i) OUTPUT w in
             let w := pinMode (d1_pins (p2 w) !!! i) OUTPUT w in
             pinMode (d2_pins (p2 w) !!! i) OUTPUT w) w in
  (* SET INPUT PINS *)
  let w := pinMode P1_BUTTON INPUT w in
  pinMode P2_BUTTON INPUT w.

(** ** loop() *)

(** [e1] and [e2] are the environment as seen by the two button handlers.
    The two scores are formed in [int] and narrowed to [uint8_t] by their
    initialisation; the additions of the comparisons are in [int]. *)
Definition loop (e1 e2 : Env) (w : World) : World :=
  (* DISPLAY SCORES *)
  let w := displayFirstDigit RefP1 (d1_num (p1 w)) w in
  let w := displaySecondDigit RefP1 (d2_num (p1 w)) w in
  let w := displayFirstDigit RefP2 (d1_num (p2 w)) w in
  let w := displaySecondDigit RefP2 (d2_num (p2 w)) w in
  (* HANDLE BUTTON INPUTS *)
  let w := handle_button RefP1 e1 w in
  let w := handle_button RefP2 e2 w in
  (* CHECK FOR WINNING CONDITIONS *)
  if negb (winner_found w) then
    (* COMBINE DIGIT NUMS INTO SCORE *)
    let p1_score := u8 (d1_num (p1 w) * NUM_DIGITS + d2_num (p1 w)) in
    let p2_score := u8 (d1_num (p2 w) * NUM_DIGITS + d2_num (p2 w)) in
    (* CHECK WIN BY 2 *)
    if bool_decide (p1_score >= UP_TO_SCORE)
       && bool_decide (p1_score > p2_score + 1) then
      let w := set_winner_found true w in
      set_p1_is_winner true w
    else if bool_decide (p2_score >= UP_TO_SCORE)
            && bool_decide (p2_score > p1_score + 1) then
      set_winner_found true w
    else w
  else if p1_is_winner w then
    (* BLINK PLAYER 1's SCORE *)
    blinkWinner RefP1 w
  else
    (* BLINK PLAYER 2's SCORE *)
    blinkWinner RefP2 w.

(** ** Runs of the sketch *)

(** Static storage is zero-initialised and no pin has been touched. *)
Definition zero_player : Player :=
  mkPlayer [# 0; 0; 0; 0; 0; 0; 0] [# 0; 0; 0; 0; 0; 0; 0] 0 0 0 false false.
Definition power_on : World :=
  mkWorld zero_player zero_player false false (mkBoard ∅ ∅ []).

Definition initial : World := setup power_on.

(** The worlds observable between two iterations of [loop]. *)
Inductive reachable : World → Prop :=
  | reachable_setup : reachable initial
  | reachable_loop e1 e2 w : reachable w → reachable (loop e1 e2 w).

(** Running [loop] over a list of environment pairs. *)
Definition run (es : list (Env * Env)) (w : World) : World :=
  foldl (λ w e, loop e.1 e.2 w) w es.

(** An environment given by the two button levels and the clock. *)
Definition env (b1 b2 : bool) (t : Z) : Env :=
  mkEnv (λ pin, if bool_decide (pin = P1_BUTTON) then b1
                else if bool_decide (pin = P2_BUTTON) then b2 else false) t.

(** * Derived notions used by the statements *)

(** The events a computation appends to the trace. *)
Definition emitted (f : World → World) (w : World) : list Event :=
  drop (length (trace (board w))) (trace (board (f w))).

(** Level put on segment [i] for the argument [num]. *)
Definition segment_level (num : Z) (i : fin SEVEN_SEGMENTS) : Level :=
  if bool_decide (num < 0) || bool_decide (num >= NUM_DIGITS)
  then OFF else displayLEDs_at num i.

(** The pin and level of each of the seven writes of one digit. *)
Definition digit_assignments (pins : vec Z SEVEN_SEGMENTS) (num : Z)
    : list (Z * Level) :=
  (λ i, (pins !!! i, segment_level num i)) <$> segment_indices.

(** A sequence of [digitalWrite] calls. *)
Definition write_list (ws : list (Z * Level)) (w : World) : World :=
  foldl (λ w pl, digitalWrite pl.1 pl.2 w) w ws.

(** The seven writes of one digit, in loop order. *)
Definition digit_writes (pins : vec Z SEVEN_SEGMENTS) (num : Z) : list Event :=
  (λ i, EvWrite (pins !!! i) (segment_level num i)) <$> segment_indices.

(** Segment names, in the column order A..G of the table. *)
Inductive Segment := SegA | SegB | SegC | SegD | SegE | SegF | SegG.

#[global] Instance Segment_eq_dec : EqDecision Segment.
Proof. solve_decision. Defined.

Definition segment_name (i : fin SEVEN_SEGMENTS) : Segment :=
  match fin_to_nat i with
  | 0 => SegA | 1 => SegB | 2 => SegC | 3 => SegD
  | 4 => SegE | 5 => SegF | _ => SegG
  end%nat.

(** The segments a call of the renderer with argument [num] lights. *)
Definition lit_segments (num : Z) : list Segment :=
  segment_name <$> filter (λ i, segment_level num i = ON) segment_indices.

(** The digit table of section 4.1 of the specification (lit segments). *)
Definition spec_digit_table (d : Z) : list Segment :=
  match d with
  | 0 => [SegA; SegB; SegC; SegD; SegE; SegF]
  | 1 => [SegB; SegC]
  | 2 => [SegA; SegB; SegD; SegE; SegG]
  | 3 => [SegA; SegB; SegC; SegD; SegG]
  | 4 => [SegB; SegC; SegF; SegG]
  | 5 => [SegA; SegC; SegD; SegF; SegG]
  | 6 => [SegA; SegC; SegD; SegE; SegF; SegG]
  | 7 => [SegA; SegB; SegC]
  | 8 => [SegA; SegB; SegC; SegD; SegE; SegF; SegG]
  | 9 => [SegA; SegB; SegC; SegD; SegF; SegG]
  | _ => []
  end.

(** The table in the header comment of [scorer.cpp] ("7 Seg Common Anode
    Output"): one row of line levels per digit, 0 being the lit level. *)
Definition header_comment_table : list (list Z) :=
  [ [0; 0; 0; 0; 0; 0; 1];
    [1; 0; 0; 1; 1; 1; 1];
    [0; 0; 1; 0; 0; 1; 0];
    [0; 0; 0; 0; 1; 1; 0];
    [1; 0; 0; 1; 1; 0; 0];
    [0; 1; 0; 0; 1; 0; 0];
    [0; 1; 0; 0; 0; 0; 0];
    [0; 0; 0; 1; 1; 1; 1];
    [0; 0; 0; 0; 0; 0; 0];
    [0; 0; 0; 0; 1; 0; 0] ].

Definition level_bit (l : Level) : Z :=
  match l with LOW => 0 | HIGH => 1 end.

Definition rendered_bits (num : Z) : list Z :=
  (λ i, level_bit (segment_level num i)) <$> segment_indices.

(** The combined score of the claims, [tens * 10 + ones], over the
    integers (no narrowing). *)
Definition combined (p : Player) : Z := d1_num p * 10 + d2_num p.

(** The winner as [loop] reads it from the two flags. *)
Definition declared (w : World) : option PlayerRef :=
  if winner_found w then Some (if p1_is_winner w then RefP1 else RefP2)
  else None.

(** The classification of one button sample by [handle_button]. *)
Definition is_press (r : PlayerRef) (e : Env) (w : World) : bool :=
  digitalRead e (button_pin r) && negb (prev_button_state (player r w)).
Definition is_hold (r : PlayerRef) (e : Env) (w : World) : bool :=
  digitalRead e (button_pin r) && prev_button_state (player r w).
Definition is_release (r : PlayerRef) (e : Env) (w : World) : bool :=
  negb (digitalRead e (button_pin r)) && prev_button_state (player r w).

(** Milliseconds since the recorded start of the press, as the hold
    branch computes them in [unsigned long]. *)
Definition held_ms (r : PlayerRef) (e : Env) (w : World) : Z :=
  u32 (millis e - start (player r w)).

(** The Reset Trigger is the call of [reset_game]; it shows in the trace
    as the reconfiguration of the RESET pin. *)
Definition reset_event : Event := EvPinMode RESET OUTPUT.

Definition reset_fired (f : World → World) (w : World) : Prop :=
  reset_event ∈ emitted f w.

(** Output actions of one [handle_button] call. *)
Definition button_events (r : PlayerRef) (e : Env) (w : World) : list Event :=
  if is_press r e w then [EvDelay BUTTON_PRESS_LENGTH]
  else if is_hold r e w && bool_decide (held_ms r e w >= BUTTON_HOLD_MS)
       then [reset_event]
       else [].

(** The 8-bit score that [loop] computes for a player. *)
Definition score (p : Player) : Z := u8 (d1_num p * NUM_DIGITS + d2_num p).

(** The two conditions of "CHECK WIN BY 2". *)
Definition p1_win_condition (w : World) : bool :=
  bool_decide (score (p1 w) >= UP_TO_SCORE)
  && bool_decide (score (p1 w) > score (p2 w) + 1).
Definition p2_win_condition (w : World) : bool :=
  bool_decide (score (p2 w) >= UP_TO_SCORE)
  && bool_decide (score (p2 w) > score (p1 w) + 1).

(** The body of [if(!winner_found)] in [loop]. *)
Definition check_win (w : World) : World :=
  if p1_win_condition w then
    let w := set_winner_found true w in
    set_p1_is_winner true w
  else if p2_win_condition w then
    set_winner_found true w
  else w.

(** The world after "DISPLAY SCORES", and after "HANDLE BUTTON INPUTS". *)
Definition rendered (w : World) : World :=
  let w := displayFirstDigit RefP1 (d1_num (p1 w)) w in
  let w := displaySecondDigit RefP1 (d2_num (p1 w)) w in
  let w := displayFirstDigit RefP2 (d1_num (p2 w)) w in
  displaySecondDigit RefP2 (d2_num (p2 w)) w.

Definition polled (e1 e2 : Env) (w : World) : World :=
  handle_button RefP2 e2 (handle_button RefP1 e1 (rendered w)).

(** The writes that show the two digits of one player. *)
Definition score_writes (p : Player) : list Event :=
  digit_writes (d1_pins p) (d1_num p) ++ digit_writes (d2_pins p) (d2_num p).

(** The writes that blank the two displays of one player. *)
Definition blank_writes (p : Player) : list Event :=
  ((λ i, EvWrite (d1_pins p !!! i) OFF) <$> segment_indices)
  ++ ((λ i, EvWrite (d2_pins p !!! i) OFF) <$> segment_indices).

(** Blank, pause, score, pause. *)
Definition blink_sequence (p : Player) : list Event :=
  blank_writes p ++ [EvDelay 500] ++ score_writes p ++ [EvDelay 500].

(** The pins of the two displays of a player. *)
Definition display_pins (p : Player) : list Z :=
  vec_to_list (d1_pins p) ++ vec_to_list (d2_pins p).

(** The 28 display pins. *)
Definition all_pins (w : World) : list Z :=
  display_pins (player RefP1 w) ++ display_pins (player RefP2 w).

(** The actions of a trace that drive one of the given pins. *)
Definition drives (pins : list Z) (ev : Event) : bool :=
  match ev with
  | EvWrite pin _ => bool_decide (pin ∈ pins)
  | _ => false
  end.

Definition writes_on (pins : list Z) (evs : list Event) : list Event :=
  filter (λ ev, drives pins ev) evs.

(** The environment seen by the handler of player [r] in one cycle. *)
Definition sel (r : PlayerRef) (e1 e2 : Env) : Env :=
  match r with RefP1 => e1 | RefP2 => e2 end.

(** The three match states of the data model, on the two flags. *)
Definition no_winner (w : World) : Prop :=
  winner_found w = false ∧ p1_is_winner w = false.
Definition p1_won (w : World) : Prop :=
  winner_found w = true ∧ p1_is_winner w = true.
Definition p2_won (w : World) : Prop :=
  winner_found w = true ∧ p1_is_winner w = false.

(** The win rule of the claims on the integer scores: at least 21 and
    more than the opponent's score plus one. *)
Definition wins_by_two (p q : Player) : Prop :=
  combined p >= 21 ∧ combined p > combined q + 1.

(** What is constant or bounded in every world the sketch can be in. *)
Definition digits_ok (p : Player) : Prop :=
  0 ≤ d2_num p ≤ 9 ∧ 0 ≤ d1_num p ≤ 255.

Definition wiring_ok (w : World) : Prop :=
  d1_pins (p1 w) = d1_pins p1_init ∧ d2_pins (p1 w) = d2_pins p1_init
  ∧ d1_pins (p2 w) = d1_pins p2_init ∧ d2_pins (p2 w) = d2_pins p2_init.

Definition invariant (w : World) : Prop :=
  digits_ok (p1 w) ∧ digits_ok (p2 w)
  ∧ (winner_found w = false → p1_is_winner w = false)
  ∧ wiring_ok w.

(** ** Concrete worlds and inputs used by the examples *)

(** A world at a release edge of player 1, score 0. *)
Definition w_release : World :=
  update RefP1 (set_prev_button_state true) initial.

(** A world at a release edge of player 1 whose digits are 255 and 9. *)
Definition w_release_2559 : World :=
  update RefP1 (λ p, set_d1_num 255 (set_d2_num 9 p)) w_release.

(** Both buttons pressed and released together [n] times, then player 1
    alone twice, the last release still pending. *)
Definition both_score : list (Env * Env) :=
  [(env true true 0, env true true 0); (env false false 0, env false false 0)].
Definition p1_press : Env * Env := (env true false 0, env true false 0).
Definition idle : Env * Env := (env false false 0, env false false 0).

Fixpoint repeat_cycles (n : nat) (es : list (Env * Env)) : list (Env * Env) :=
  match n with
  | O => []
  | S n => es ++ repeat_cycles n es
  end.

(** Player 1 at 255 with a release pending, player 2 at 254. *)
Definition w_255_254 : World :=
  run (repeat_cycles 254 both_score ++ [p1_press; idle; p1_press]) initial.

(** Player 1 scores 21 times in a row. *)
Definition w_p1_won : World :=
  run (repeat_cycles 21 [p1_press; idle]) initial.

(** Player 1 at 20 with a release pending, player 2 at 0. *)
Definition w_20_0 : World :=
  run (repeat_cycles 20 [p1_press; idle] ++ [p1_press]) initial.

(** ** Notions for the hold-to-reset claim *)

(** The level and the clock that the handler of player [r] samples in the
    cycle with environments [c]. *)
Definition pressed (r : PlayerRef) (c : Env * Env) : bool :=
  digitalRead (sel r c.1 c.2) (button_pin r).
Definition time_at (r : PlayerRef) (c : Env * Env) : Z :=
  millis (sel r c.1 c.2).


(** The world in which [loop] calls the handler of player [r]. *)
Definition at_button (r : PlayerRef) (c : Env * Env) (w : World) : World :=
  match r with
  | RefP1 => rendered w
  | RefP2 => handle_button RefP1 c.1 (rendered w)
  end.

(** The button of player [r] fires the Reset Trigger in the cycle [c]. *)
Definition cycle_resets (r : PlayerRef) (c : Env * Env) (w : World) : Prop :=
  reset_fired (handle_button r (sel r c.1 c.2)) (at_button r c w).

(** The player whose score blinks, and the other one. *)
Definition winner (w : World) : PlayerRef :=
  if p1_is_winner w then RefP1 else RefP2.
Definition loser (w : World) : PlayerRef := other (winner w).


(** ** Tied scoring *)

Definition digits (p : Player) : Z * Z := (d1_num p, d2_num p).

(** The digits after one score increment, as the release branch of
    [handle_button] computes them. *)
Definition bump (d : Z * Z) : Z * Z :=
  if bool_decide (u8 (d.2 + 1) >= NUM_DIGITS) then (u8 (d.1 + 1), 0)
  else (d.1, u8 (d.2 + 1)).

(** No winner, both buttons up, equal digits. *)
Definition tied (w : World) : Prop :=
  winner_found w = false
  ∧ prev_button_state (player RefP1 w) = false
  ∧ prev_button_state (player RefP2 w) = false
  ∧ digits (player RefP1 w) = digits (player RefP2 w).

Definition both_press : Env * Env := (env true true 0, env true true 0).

(** ** Scenarios of section 8 of the specification *)

(** 20 to 20, then player 1 scores once. *)
Definition w_21_20 : World :=
  run (repeat_cycles 20 both_score ++ [p1_press; idle]) initial.

(** Player 1 presses at 0 ms and is sampled released at 150 ms. *)
Definition short_press : list (Env * Env) :=
  [(env true false 0, env true false 0);
   (env false false 150, env false false 150)].

(** Player 1 presses at 0 ms and is sampled still down at 3500 ms. *)
Definition hold_3500 : list (Env * Env) :=
  [(env true false 0, env true false 0);
   (env true false 3500, env true false 3500)].

(** A world at a release edge of player 1 whose digits are 255 and 8. *)
Definition w_release_2558 : World :=
  update RefP1 (λ p, set_d1_num 255 (set_d2_num 8 p)) w_release.

(** Player 1 at 9 with a release pending, player 2 at 0. *)
Definition w_9_release : World :=
  run (repeat_cycles 9 [p1_press; idle] ++ [p1_press]) initial.

(** Both players score together 2559 times and press once more. *)
Definition w_tied_2559 : World :=
  run [both_press] (run (repeat_cycles 2559 both_score) initial).

(** ** Notions for the properties of the remaining code *)

(** A sequence of register assignments, later ones overriding earlier. *)
Definition assign {V} (kvs : list (Z * V)) (m : gmap Z V) : gmap Z V :=
  foldl (λ m kv, <[kv.1 := kv.2]> m) m kvs.

(** The [pinMode] calls of [setup], in program order. *)
Definition setup_modes : list (Z * PinMode) :=
  concat ((λ i, [(d1_pins p1_init !!! i, OUTPUT); (d2_pins p1_init !!! i, OUTPUT);
                 (d1_pins p2_init !!! i, OUTPUT); (d2_pins p2_init !!! i, OUTPUT)])
            <$> segment_indices)
  ++ [(P1_BUTTON, INPUT); (P2_BUTTON, INPUT)].

(** The pins the sketch uses as inputs or for the reset. *)
Definition control_pins : list Z := [P1_BUTTON; P2_BUTTON; RESET].

(** Total blocking time of a trace, in milliseconds. *)
Definition blocked_ms (evs : list Event) : Z :=
  foldr (λ ev acc, match ev with EvDelay ms => ms + acc | _ => acc end) 0 evs.

(** The pause a handler makes for a sample. *)
Definition press_pause (r : PlayerRef) (e : Env) (w : World) : Z :=
  if is_press r e w then BUTTON_PRESS_LENGTH else 0.

(** Player 1 presses 1000 ms before the 32-bit counter rolls over and is
    sampled still down 3000 ms later, 2000 ms after the roll-over. *)
Definition w_pressed_before_wrap : World :=
  loop (env true false (2 ^ 32 - 1000)) (env true false (2 ^ 32 - 1000)) initial.
Definition hold_after_wrap : Env := env true false (2 ^ 32 + 2000).

(** * Properties *)

(** Closed arithmetic facts about concrete worlds, by evaluation. *)
Ltac closed_arith :=
  vm_compute; repeat split; try reflexivity; try discriminate;
  intros; discriminate.

(** The functions of the sketch are unfolded on request only. *)
#[local] Arguments displayFirstDigit : simpl never.
#[local] Arguments displaySecondDigit : simpl never.
#[local] Arguments blinkWinner : simpl never.
#[local] Arguments handle_button : simpl never.
#[local] Arguments check_win : simpl never.
#[local] Arguments rendered : simpl never.
#[local] Arguments polled : simpl never.
#[local] Arguments loop : simpl never.
#[local] Arguments write_list : simpl never.
#[local] Arguments initial : simpl never.

(** ** Output actions of one call *)

Lemma emitted_app f w evs :
  trace (board (f w)) = trace (board w) ++ evs → emitted f w = evs.
Proof. intros H. unfold emitted. rewrite H. apply drop_app_length. Qed.

(** ** The digit renderer *)

Lemma write_list_snoc ws p l w :
  write_list (ws ++ [(p, l)]) w = digitalWrite p l (write_list ws w).
Proof. unfold write_list. by rewrite foldl_snoc. Qed.

Lemma write_list_globals ws w :
  let w' := write_list ws w in
  p1 w' = p1 w ∧ p2 w' = p2 w
  ∧ winner_found w' = winner_found w ∧ p1_is_winner w' = p1_is_winner w
  ∧ pin_modes (board w') = pin_modes (board w).
Proof.
  induction ws as [|[p l] ws IH] using rev_ind; [done|].
  rewrite write_list_snoc. simpl in *. tauto.
Qed.

Lemma write_list_trace ws w :
  trace (board (write_list ws w))
  = trace (board w) ++ ((λ pl, EvWrite pl.1 pl.2) <$> ws).
Proof.
  induction ws as [|[p l] ws IH] using rev_ind.
  - simpl. by rewrite app_nil_r.
  - rewrite write_list_snoc, fmap_app. simpl. rewrite IH.
    by rewrite <- app_assoc.
Qed.

Lemma write_list_levels_other ws w q :
  q ∉ ws.*1 →
  pin_levels (board (write_list ws w)) !! q = pin_levels (board w) !! q.
Proof.
  induction ws as [|[p l] ws IH] using rev_ind; [done|].
  rewrite fmap_app, not_elem_of_app. simpl. intros [Hq Hp].
  rewrite write_list_snoc. simpl.
  rewrite lookup_insert_ne; [by apply IH|].
  intros ->. apply Hp. by left.
Qed.

Lemma write_list_levels_in ws w q l :
  NoDup ws.*1 → (q, l) ∈ ws →
  pin_levels (board (write_list ws w)) !! q = Some l.
Proof.
  induction ws as [|[p l'] ws IH] using rev_ind; [by intros _ ?%elem_of_nil|].
  rewrite fmap_app. simpl. intros [Hnd [Hdis _]]%NoDup_app Hin.
  rewrite write_list_snoc. simpl.
  apply elem_of_app in Hin as [Hin|Hin].
  - rewrite lookup_insert_ne; [by apply IH|].
    intros ->. apply (Hdis q); [|by left].
    apply list_elem_of_fmap. by exists (q, l).
  - apply list_elem_of_singleton in Hin. injection Hin as -> ->.
    by rewrite lookup_insert_eq.
Qed.

(** The loop of the renderer is a sequence of seven writes. *)
Lemma for_each_writes (l : list (fin SEVEN_SEGMENTS))
    (body : fin SEVEN_SEGMENTS → World → World)
    (pin : World → fin SEVEN_SEGMENTS → Z) (lvl : fin SEVEN_SEGMENTS → Level) w :
  (∀ i w', body i w' = digitalWrite (pin w' i) (lvl i) w') →
  (∀ i w' q v, pin (digitalWrite q v w') i = pin w' i) →
  for_each l body w = write_list ((λ i, (pin w i, lvl i)) <$> l) w.
Proof.
  intros Hbody Hpin. unfold for_each.
  induction l as [|i l IH] using rev_ind; [done|].
  rewrite foldl_snoc, fmap_app. simpl. rewrite write_list_snoc.
  rewrite IH, Hbody. f_equal.
  generalize ((λ i0, (pin w i0, lvl i0)) <$> l). intros ws.
  induction ws as [|[p v] ws IHws] using rev_ind; [done|].
  rewrite write_list_snoc. by rewrite Hpin.
Qed.

Lemma displayFirstDigit_writes r num w :
  displayFirstDigit r num w
  = write_list (digit_assignments (d1_pins (player r w)) num) w.
Proof.
  unfold displayFirstDigit, digit_assignments.
  apply (for_each_writes segment_indices _
           (λ w i, d1_pins (player r w) !!! i) (segment_level num)).
  - intros i w'. unfold segment_level.
    by destruct (bool_decide (num < 0) || bool_decide (num >= NUM_DIGITS)).
  - intros. by destruct r.
Qed.

Lemma displaySecondDigit_writes r num w :
  displaySecondDigit r num w
  = write_list (digit_assignments (d2_pins (player r w)) num) w.
Proof.
  unfold displaySecondDigit, digit_assignments.
  apply (for_each_writes segment_indices _
           (λ w i, d2_pins (player r w) !!! i) (segment_level num)).
  - intros i w'. unfold segment_level.
    by destruct (bool_decide (num < 0) || bool_decide (num >= NUM_DIGITS)).
  - intros. by destruct r.
Qed.

Lemma digit_writes_assignments pins num :
  (λ pl, EvWrite pl.1 pl.2) <$> digit_assignments pins num
  = digit_writes pins num.
Proof. reflexivity. Qed.

Lemma displayFirstDigit_globals r num w :
  let w' := displayFirstDigit r num w in
  p1 w' = p1 w ∧ p2 w' = p2 w
  ∧ winner_found w' = winner_found w ∧ p1_is_winner w' = p1_is_winner w
  ∧ pin_modes (board w') = pin_modes (board w).
Proof. rewrite displayFirstDigit_writes. apply write_list_globals. Qed.

Lemma displaySecondDigit_globals r num w :
  let w' := displaySecondDigit r num w in
  p1 w' = p1 w ∧ p2 w' = p2 w
  ∧ winner_found w' = winner_found w ∧ p1_is_winner w' = p1_is_winner w
  ∧ pin_modes (board w') = pin_modes (board w).
Proof. rewrite displaySecondDigit_writes. apply write_list_globals. Qed.

Lemma displayFirstDigit_trace r num w :
  trace (board (displayFirstDigit r num w))
  = trace (board w) ++ digit_writes (d1_pins (player r w)) num.
Proof.
  rewrite displayFirstDigit_writes, write_list_trace.
  by rewrite digit_writes_assignments.
Qed.

Lemma displaySecondDigit_trace r num w :
  trace (board (displaySecondDigit r num w))
  = trace (board w) ++ digit_writes (d2_pins (player r w)) num.
Proof.
  rewrite displaySecondDigit_writes, write_list_trace.
  by rewrite digit_writes_assignments.
Qed.

Lemma segment_level_blank num i :
  ¬ (0 ≤ num ≤ 9) → segment_level num i = OFF.
Proof.
  intros H. unfold segment_level, NUM_DIGITS.
  destruct (decide (num < 0)); [by rewrite bool_decide_true|].
  rewrite (bool_decide_true (num >= 10)); [|lia].
  by rewrite orb_true_r.
Qed.

(** Outside [0,9] every one of the seven lines is driven to the inactive
    level, on either display. *)
Lemma render_blank r num w :
  ¬ (0 ≤ num ≤ 9) →
  emitted (displayFirstDigit r num) w
    = (λ i, EvWrite (d1_pins (player r w) !!! i) OFF) <$> segment_indices
  ∧ emitted (displaySecondDigit r num) w
    = (λ i, EvWrite (d2_pins (player r w) !!! i) OFF) <$> segment_indices.
Proof.
  intros H. split.
  - rewrite (emitted_app _ _ _ (displayFirstDigit_trace r num w)).
    unfold digit_writes; simpl. by rewrite !segment_level_blank.
  - rewrite (emitted_app _ _ _ (displaySecondDigit_trace r num w)).
    unfold digit_writes; simpl. by rewrite !segment_level_blank.
Qed.

Lemma digit_cases (d : Z) :
  0 ≤ d ≤ 9 →
  d = 0 ∨ d = 1 ∨ d = 2 ∨ d = 3 ∨ d = 4 ∨ d = 5 ∨ d = 6 ∨ d = 7 ∨ d = 8 ∨ d = 9.
Proof. lia. Qed.

(** Every digit but 1 is rendered as the table of section 4.1 says. *)
Lemma render_matches_table_except_1 d :
  0 ≤ d ≤ 9 → d ≠ 1 → lit_segments d = spec_digit_table d.
Proof.
  intros Hd H1.
  destruct (digit_cases d Hd) as [->|[->|[->|[->|[->|[->|[->|[->|[->| ->]]]]]]]]];
    try done; vm_compute; reflexivity.
Qed.

(** The header comment and the specification agree on every digit. *)
Lemma header_comment_matches_spec d :
  0 ≤ d ≤ 9 →
  ∃ row, header_comment_table !! Z.to_nat d = Some row
    ∧ segment_name <$> filter (λ i, row !! fin_to_nat i = Some 0) segment_indices
      = spec_digit_table d.
Proof.
  intros Hd.
  destruct (digit_cases d Hd) as [->|[->|[->|[->|[->|[->|[->|[->|[->| ->]]]]]]]]];
    eexists; (split; [reflexivity|]); vm_compute; reflexivity.
Qed.

(** C2, evaluated at digit 1: the tens display of player 1 gets segments
    B, C, D, E and F driven to the lit level, where section 4.1 (and the
    header comment of the source) light exactly B and C. *)
Theorem render_digit_1_lights_BCDEF :
  emitted (displayFirstDigit RefP1 1) initial
    = [EvWrite 2 OFF; EvWrite 3 ON; EvWrite 4 ON; EvWrite 5 ON;
       EvWrite 6 ON; EvWrite 7 ON; EvWrite 8 OFF]
  ∧ lit_segments 1 = [SegB; SegC; SegD; SegE; SegF]
  ∧ spec_digit_table 1 = [SegB; SegC]
  ∧ rendered_bits 1 = [1; 0; 0; 0; 0; 0; 1]
  ∧ header_comment_table !! 1%nat = Some [1; 0; 0; 1; 1; 1; 1].
Proof. repeat split; vm_compute; reflexivity. Qed.

(** ** The in-process reset *)

(** C10: [reset_game] leaves both player records and both winner flags as
    they were, drives no pin, and only reconfigures RESET as an output. *)
Theorem reset_game_frame w :
  let w' := reset_game w in
  p1 w' = p1 w ∧ p2 w' = p2 w
  ∧ winner_found w' = winner_found w ∧ p1_is_winner w' = p1_is_winner w
  ∧ pin_levels (board w') = pin_levels (board w)
  ∧ pin_modes (board w') = <[RESET := OUTPUT]> (pin_modes (board w))
  ∧ (∀ pin, pin ≠ RESET →
       pin_modes (board w') !! pin = pin_modes (board w) !! pin)
  ∧ emitted reset_game w = [EvPinMode RESET OUTPUT].
Proof.
  simpl. repeat split; try reflexivity.
  - intros pin Hp. by rewrite lookup_insert_ne.
  - by apply emitted_app.
Qed.

(** ** The button handler *)

Ltac button_cases r e w :=
  unfold button_events in *;
  unfold handle_button, update, reset_game, is_press,
    is_hold, is_release, held_ms in *;
  destruct r, w as [[] [] [] ? []]; simpl in *;
  repeat (match goal with
          | |- context [digitalRead e ?pin] => destruct (digitalRead e pin)
          | b : bool |- _ => destruct b
          end; simpl in * );
  repeat (case_bool_decide; simpl in * ).

Lemma handle_button_trace r e w :
  trace (board (handle_button r e w)) = trace (board w) ++ button_events r e w.
Proof.
  button_cases r e w; rewrite ?app_nil_r; try done; lia.
Qed.

Lemma handle_button_board r e w :
  pin_levels (board (handle_button r e w)) = pin_levels (board w).
Proof. button_cases r e w; done. Qed.

Lemma handle_button_flags r e w :
  winner_found (handle_button r e w) = winner_found w
  ∧ p1_is_winner (handle_button r e w) = p1_is_winner w.
Proof. button_cases r e w; done. Qed.

Lemma handle_button_other r e w :
  player (other r) (handle_button r e w) = player (other r) w.
Proof. button_cases r e w; done. Qed.

Lemma handle_button_pins r e w :
  d1_pins (player r (handle_button r e w)) = d1_pins (player r w)
  ∧ d2_pins (player r (handle_button r e w)) = d2_pins (player r w).
Proof. button_cases r e w; done. Qed.

(** What the classifier leaves in the player record. *)
Lemma handle_button_state r e w :
  let p' := player r (handle_button r e w) in
  button_state p' = digitalRead e (button_pin r)
  ∧ prev_button_state p' = digitalRead e (button_pin r)
  ∧ start p' = (if is_press r e w then millis e else start (player r w)).
Proof. button_cases r e w; done. Qed.

Lemma handle_button_digits r e w :
  let p := player r w in
  let p' := player r (handle_button r e w) in
  is_release r e w && negb (winner_found w) = false →
  d1_num p' = d1_num p ∧ d2_num p' = d2_num p.
Proof. button_cases r e w; done. Qed.

(** ** Score increment *)

(** C3, for every state but the digits 255 and 9: with no winner, [ones]
    in [0,9] and [tens] in the range of its type, the one state with
    [tens] = 255 and [ones] = 9 apart, a release edge adds exactly one to
    [tens * 10 + ones]: [ones] goes up by one, or from 9 to 0 with [tens]
    going up by one in the same call. *)
Theorem release_increments_score r e w :
  winner_found w = false →
  is_release r e w = true →
  0 ≤ d2_num (player r w) ≤ 9 →
  0 ≤ d1_num (player r w) ≤ 255 →
  ¬ (d1_num (player r w) = 255 ∧ d2_num (player r w) = 9) →
  let p := player r w in
  let p' := player r (handle_button r e w) in
  combined p' = combined p + 1
  ∧ (d2_num p < 9 → d2_num p' = d2_num p + 1 ∧ d1_num p' = d1_num p)
  ∧ (d2_num p = 9 → d2_num p' = 0 ∧ d1_num p' = d1_num p + 1).
Proof.
  intros Hw Hr H2 H1 Hne. unfold combined.
  button_cases r e w; unfold u8, NUM_DIGITS in *; try done;
    Z.div_mod_to_equations; lia.
Qed.

Lemma release_increments_score_witness :
  combined (p1 (handle_button RefP1 (env false false 0) w_release_2558))
  = combined (p1 w_release_2558) + 1.
Proof.
  refine (proj1 (release_increments_score RefP1 (env false false 0)
                   w_release_2558 _ _ _ _ _));
    [reflexivity | reflexivity | closed_arith | closed_arith |].
  intros [_ H]. vm_compute in H. discriminate H.
Defined.

(** C3 as stated fails at the digits 255 and 9: the carry wraps the tens
    field to 0 and the combined score falls from 2559 to 0. *)
Lemma release_at_2559_wraps :
  winner_found w_release_2559 = false
  ∧ is_release RefP1 (env false false 0) w_release_2559 = true
  ∧ 0 ≤ d2_num (p1 w_release_2559) ≤ 9
  ∧ combined (p1 w_release_2559) = 2559
  ∧ combined (p1 (handle_button RefP1 (env false false 0) w_release_2559)) = 0
  ∧ combined (p1 (handle_button RefP1 (env false false 0) w_release_2559))
    ≠ combined (p1 w_release_2559) + 1.
Proof. repeat split; closed_arith. Qed.

(** ** The control loop, piecewise *)

Lemma loop_unfold e1 e2 w :
  loop e1 e2 w =
    let w' := polled e1 e2 w in
    if negb (winner_found w') then check_win w'
    else if p1_is_winner w' then blinkWinner RefP1 w'
    else blinkWinner RefP2 w'.
Proof.
  unfold loop, polled, rendered, check_win, p1_win_condition,
    p2_win_condition, score.
  reflexivity.
Qed.

(** Frame equations of the renderer, as rewrite rules. *)
Lemma displayFirstDigit_p1 r n w : p1 (displayFirstDigit r n w) = p1 w.
Proof. apply displayFirstDigit_globals. Qed.
Lemma displayFirstDigit_p2 r n w : p2 (displayFirstDigit r n w) = p2 w.
Proof. apply displayFirstDigit_globals. Qed.
Lemma displayFirstDigit_wf r n w :
  winner_found (displayFirstDigit r n w) = winner_found w.
Proof. apply displayFirstDigit_globals. Qed.
Lemma displayFirstDigit_pw r n w :
  p1_is_winner (displayFirstDigit r n w) = p1_is_winner w.
Proof. apply displayFirstDigit_globals. Qed.
Lemma displaySecondDigit_p1 r n w : p1 (displaySecondDigit r n w) = p1 w.
Proof. apply displaySecondDigit_globals. Qed.
Lemma displaySecondDigit_p2 r n w : p2 (displaySecondDigit r n w) = p2 w.
Proof. apply displaySecondDigit_globals. Qed.
Lemma displaySecondDigit_wf r n w :
  winner_found (displaySecondDigit r n w) = winner_found w.
Proof. apply displaySecondDigit_globals. Qed.
Lemma displaySecondDigit_pw r n w :
  p1_is_winner (displaySecondDigit r n w) = p1_is_winner w.
Proof. apply displaySecondDigit_globals. Qed.
Lemma displayFirstDigit_player r' r n w :
  player r' (displayFirstDigit r n w) = player r' w.
Proof.
  destruct r'; [apply displayFirstDigit_p1 | apply displayFirstDigit_p2].
Qed.
Lemma displaySecondDigit_player r' r n w :
  player r' (displaySecondDigit r n w) = player r' w.
Proof.
  destruct r'; [apply displaySecondDigit_p1 | apply displaySecondDigit_p2].
Qed.

Lemma delay_p1 ms w : p1 (delay ms w) = p1 w.
Proof. reflexivity. Qed.
Lemma delay_p2 ms w : p2 (delay ms w) = p2 w.
Proof. reflexivity. Qed.
Lemma delay_wf ms w : winner_found (delay ms w) = winner_found w.
Proof. reflexivity. Qed.
Lemma delay_pw ms w : p1_is_winner (delay ms w) = p1_is_winner w.
Proof. reflexivity. Qed.
Lemma delay_player r ms w : player r (delay ms w) = player r w.
Proof. by destruct r. Qed.
Lemma delay_levels ms w :
  pin_levels (board (delay ms w)) = pin_levels (board w).
Proof. reflexivity. Qed.
Lemma delay_trace ms w :
  trace (board (delay ms w)) = trace (board w) ++ [EvDelay ms].
Proof. reflexivity. Qed.

(** Pushing a projection of the globals through the renderer. *)
Ltac frame_step :=
  match goal with
  | |- context [p1 (delay ?ms ?w)] => rewrite (delay_p1 ms w)
  | |- context [p2 (delay ?ms ?w)] => rewrite (delay_p2 ms w)
  | |- context [winner_found (delay ?ms ?w)] => rewrite (delay_wf ms w)
  | |- context [p1_is_winner (delay ?ms ?w)] => rewrite (delay_pw ms w)
  | |- context [player ?r (delay ?ms ?w)] => rewrite (delay_player r ms w)
  | |- context [p1 (displayFirstDigit ?r ?n ?w)] =>
      rewrite (displayFirstDigit_p1 r n w)
  | |- context [p2 (displayFirstDigit ?r ?n ?w)] =>
      rewrite (displayFirstDigit_p2 r n w)
  | |- context [winner_found (displayFirstDigit ?r ?n ?w)] =>
      rewrite (displayFirstDigit_wf r n w)
  | |- context [p1_is_winner (displayFirstDigit ?r ?n ?w)] =>
      rewrite (displayFirstDigit_pw r n w)
  | |- context [player ?r' (displayFirstDigit ?r ?n ?w)] =>
      rewrite (displayFirstDigit_player r' r n w)
  | |- context [p1 (displaySecondDigit ?r ?n ?w)] =>
      rewrite (displaySecondDigit_p1 r n w)
  | |- context [p2 (displaySecondDigit ?r ?n ?w)] =>
      rewrite (displaySecondDigit_p2 r n w)
  | |- context [winner_found (displaySecondDigit ?r ?n ?w)] =>
      rewrite (displaySecondDigit_wf r n w)
  | |- context [p1_is_winner (displaySecondDigit ?r ?n ?w)] =>
      rewrite (displaySecondDigit_pw r n w)
  | |- context [player ?r' (displaySecondDigit ?r ?n ?w)] =>
      rewrite (displaySecondDigit_player r' r n w)
  end.
Ltac frame := repeat frame_step.

Lemma rendered_globals w :
  p1 (rendered w) = p1 w ∧ p2 (rendered w) = p2 w
  ∧ winner_found (rendered w) = winner_found w
  ∧ p1_is_winner (rendered w) = p1_is_winner w.
Proof. unfold rendered. cbv zeta. frame. done. Qed.

(** ** Frame of the button handler and of the blink *)

(** The handler reads nothing but its own player record and
    [winner_found]. *)
Lemma handle_button_local r e w1 w2 :
  player r w1 = player r w2 → winner_found w1 = winner_found w2 →
  player r (handle_button r e w1) = player r (handle_button r e w2).
Proof.
  intros Hp Hw.
  unfold handle_button, update, reset_game.
  destruct r, w1 as [[] [] ? ? []], w2 as [[] [] ? ? []]; simpl in *;
    subst; injection Hp as -> -> -> -> -> -> ->;
    repeat (match goal with
            | |- context [digitalRead e ?pin] => destruct (digitalRead e pin)
            | b : bool |- _ => destruct b
            end; simpl);
    repeat (case_bool_decide; simpl); try done; lia.
Qed.

Lemma blinkWinner_globals r w :
  p1 (blinkWinner r w) = p1 w ∧ p2 (blinkWinner r w) = p2 w
  ∧ winner_found (blinkWinner r w) = winner_found w
  ∧ p1_is_winner (blinkWinner r w) = p1_is_winner w.
Proof. unfold blinkWinner. cbv zeta. frame. done. Qed.

Lemma check_win_frame w :
  p1 (check_win w) = p1 w ∧ p2 (check_win w) = p2 w
  ∧ board (check_win w) = board w.
Proof.
  unfold check_win.
  by destruct (p1_win_condition w), (p2_win_condition w).
Qed.

Lemma polled_flags e1 e2 w :
  winner_found (polled e1 e2 w) = winner_found w
  ∧ p1_is_winner (polled e1 e2 w) = p1_is_winner w.
Proof.
  unfold polled.
  destruct (handle_button_flags RefP2 e2 (handle_button RefP1 e1 (rendered w)))
    as [-> ->].
  destruct (handle_button_flags RefP1 e1 (rendered w)) as [-> ->].
  destruct (rendered_globals w) as (_ & _ & -> & ->). done.
Qed.

Lemma polled_player r e1 e2 w :
  player r (polled e1 e2 w) = player r (handle_button r (sel r e1 e2) w).
Proof.
  unfold polled.
  destruct (rendered_globals w) as (H1 & H2 & Hw & _).
  destruct r; cbn [sel].
  - pose proof (handle_button_other RefP2 e2
                    (handle_button RefP1 e1 (rendered w))) as Ho.
    cbn [other] in Ho. rewrite Ho.
    by apply (handle_button_local RefP1).
  - apply (handle_button_local RefP2).
    + pose proof (handle_button_other RefP1 e1 (rendered w)) as Ho.
      cbn [other] in Ho. rewrite Ho. exact H2.
    + by destruct (handle_button_flags RefP1 e1 (rendered w)) as [-> _].
Qed.

(** Within one cycle only the button handler touches a player record. *)
Lemma loop_player r e1 e2 w :
  player r (loop e1 e2 w) = player r (handle_button r (sel r e1 e2) w).
Proof.
  rewrite <- polled_player, loop_unfold. cbv zeta.
  destruct (negb (winner_found (polled e1 e2 w))).
  - destruct (check_win_frame (polled e1 e2 w)) as (? & ? & _).
    by destruct r.
  - destruct (p1_is_winner (polled e1 e2 w)).
    + destruct (blinkWinner_globals RefP1 (polled e1 e2 w)) as (?&?&_).
      by destruct r.
    + destruct (blinkWinner_globals RefP2 (polled e1 e2 w)) as (?&?&_).
      by destruct r.
Qed.

(** The flags after one cycle. *)
Lemma loop_flags_won e1 e2 w :
  winner_found w = true →
  winner_found (loop e1 e2 w) = true
  ∧ p1_is_winner (loop e1 e2 w) = p1_is_winner w.
Proof.
  intros Hw. rewrite loop_unfold. cbv zeta.
  destruct (polled_flags e1 e2 w) as [Hf Hp]. rewrite Hf, Hw. cbn [negb].
  destruct (p1_is_winner (polled e1 e2 w)) eqn:E.
  - destruct (blinkWinner_globals RefP1 (polled e1 e2 w)) as (_&_&->&->).
    split; congruence.
  - destruct (blinkWinner_globals RefP2 (polled e1 e2 w)) as (_&_&->&->).
    split; congruence.
Qed.

Lemma loop_flags_open e1 e2 w :
  winner_found w = false →
  loop e1 e2 w = check_win (polled e1 e2 w).
Proof.
  intros Hw. rewrite loop_unfold. cbv zeta.
  destruct (polled_flags e1 e2 w) as [Hf Hp]. by rewrite Hf, Hw.
Qed.

(** ** Invariants of the reachable worlds *)

Lemma handle_button_digits_ok r e w :
  digits_ok (player r w) → digits_ok (player r (handle_button r e w)).
Proof.
  unfold digits_ok. intros [H2 H1].
  button_cases r e w; unfold u8, NUM_DIGITS in *; try lia;
    repeat match goal with
    | |- context [?a mod 256] =>
        pose proof (Z.mod_pos_bound a 256 eq_refl);
        (try (rewrite (Z.mod_small a 256) in * by lia));
        generalize dependent (a mod 256); intros
    end; lia.
Qed.

Lemma check_win_flags w :
  (winner_found w = false → p1_is_winner w = false) →
  (winner_found (check_win w) = false → p1_is_winner (check_win w) = false).
Proof.
  unfold check_win.
  destruct (p1_win_condition w), (p2_win_condition w); simpl; auto; done.
Qed.

Lemma invariant_initial : invariant initial.
Proof. repeat split; closed_arith. Qed.

Lemma invariant_loop e1 e2 w : invariant w → invariant (loop e1 e2 w).
Proof.
  intros (Hd1 & Hd2 & Hf & Hp1a & Hp1b & Hp2a & Hp2b).
  pose proof (loop_player RefP1 e1 e2 w) as L1.
  pose proof (loop_player RefP2 e1 e2 w) as L2.
  cbn [player sel] in L1, L2.
  unfold invariant, wiring_ok. rewrite L1, L2.
  destruct (handle_button_pins RefP1 e1 w) as [Ha Hb].
  destruct (handle_button_pins RefP2 e2 w) as [Hc Hd].
  cbn [player] in Ha, Hb, Hc, Hd. rewrite Ha, Hb, Hc, Hd.
  split; [apply (handle_button_digits_ok RefP1 e1 w Hd1)|].
  split; [apply (handle_button_digits_ok RefP2 e2 w Hd2)|].
  split; [|done].
  destruct (winner_found w) eqn:Hw.
  - destruct (loop_flags_won e1 e2 w Hw) as [-> _]. done.
  - rewrite (loop_flags_open e1 e2 w Hw). apply check_win_flags.
    destruct (polled_flags e1 e2 w) as [-> ->]. intros _. by apply Hf.
Qed.

Lemma reachable_invariant w : reachable w → invariant w.
Proof.
  induction 1; [apply invariant_initial | by apply invariant_loop].
Qed.

Lemma reachable_run es w : reachable w → reachable (run es w).
Proof.
  revert w. induction es as [|[e1 e2] es IH]; intros w Hw; [done|].
  apply IH. by constructor.
Qed.

(** ** Frozen scores *)

(** C4: once [winner_found] is set, no call of the button handler, for
    either player and whatever the button does, and no cycle of the loop
    changes any of the four digit fields. *)
Theorem scores_frozen_after_win w :
  winner_found w = true →
  (∀ r e,
     let w' := handle_button r e w in
     d1_num (p1 w') = d1_num (p1 w) ∧ d2_num (p1 w') = d2_num (p1 w)
     ∧ d1_num (p2 w') = d1_num (p2 w) ∧ d2_num (p2 w') = d2_num (p2 w))
  ∧ (∀ e1 e2,
     let w' := loop e1 e2 w in
     d1_num (p1 w') = d1_num (p1 w) ∧ d2_num (p1 w') = d2_num (p1 w)
     ∧ d1_num (p2 w') = d1_num (p2 w) ∧ d2_num (p2 w') = d2_num (p2 w)).
Proof.
  intros Hw.
  assert (∀ r e, d1_num (player r (handle_button r e w)) = d1_num (player r w)
                 ∧ d2_num (player r (handle_button r e w)) = d2_num (player r w))
    as Hown.
  { intros r e. apply handle_button_digits. rewrite Hw.
    by rewrite andb_false_r. }
  split.
  - intros r e. cbv zeta.
    pose proof (handle_button_other r e w) as Ho.
    destruct (Hown r e) as [Ha Hb].
    destruct r; cbn [player other] in *; rewrite Ho; done.
  - intros e1 e2. cbv zeta.
    pose proof (loop_player RefP1 e1 e2 w) as L1.
    pose proof (loop_player RefP2 e1 e2 w) as L2.
    cbn [player sel] in L1, L2. rewrite L1, L2.
    destruct (Hown RefP1 e1) as [Ha Hb]. destruct (Hown RefP2 e2) as [Hc Hd].
    done.
Qed.

Lemma scores_frozen_after_win_witness :
  d1_num (p1 (loop p1_press.1 p1_press.2 w_p1_won)) = d1_num (p1 w_p1_won)
  ∧ d2_num (p1 (loop p1_press.1 p1_press.2 w_p1_won)) = d2_num (p1 w_p1_won)
  ∧ d1_num (p2 (loop p1_press.1 p1_press.2 w_p1_won)) = d1_num (p2 w_p1_won)
  ∧ d2_num (p2 (loop p1_press.1 p1_press.2 w_p1_won)) = d2_num (p2 w_p1_won).
Proof.
  refine (proj2 (scores_frozen_after_win w_p1_won _)
            p1_press.1 p1_press.2).
  vm_compute. reflexivity.
Defined.

(** ** The ones digit *)

Lemma release_carry r e w :
  winner_found w = false → is_release r e w = true →
  d2_num (player r w) = 9 →
  d2_num (player r (handle_button r e w)) = 0
  ∧ d1_num (player r (handle_button r e w)) = u8 (d1_num (player r w) + 1).
Proof.
  intros Hw Hrel H9.
  button_cases r e w; subst; try done.
  all: exfalso; match goal with H : ¬ _ |- _ => apply H end; by vm_compute.
Qed.

(** C5, with the carry as the 8-bit field performs it: in every world
    reachable from [setup] by [loop] both ones digits lie in [0,9]; they
    still do after any call of the button handler; and the call that
    takes a ones digit past 9 leaves it at 0 and, in the same call, adds
    one to a tens digit below 255 and takes a tens digit of 255 to 0. *)
Theorem ones_digit_in_range w :
  reachable w →
  (0 ≤ d2_num (p1 w) ≤ 9 ∧ 0 ≤ d2_num (p2 w) ≤ 9)
  ∧ (∀ r e, 0 ≤ d2_num (player r (handle_button r e w)) ≤ 9)
  ∧ (∀ r e,
       winner_found w = false → is_release r e w = true →
       d2_num (player r w) = 9 →
       d2_num (player r (handle_button r e w)) = 0
       ∧ (d1_num (player r w) < 255 →
          d1_num (player r (handle_button r e w)) = d1_num (player r w) + 1)
       ∧ (d1_num (player r w) = 255 →
          d1_num (player r (handle_button r e w)) = 0)).
Proof.
  intros Hr. destruct (reachable_invariant w Hr) as (H1 & H2 & _).
  split; [split; [apply H1 | apply H2]|]. split.
  - intros r e. apply handle_button_digits_ok. by destruct r.
  - intros r e Hw Hrel H9.
    destruct (release_carry r e w Hw Hrel H9) as [Ha Hb].
    assert (0 ≤ d1_num (player r w) ≤ 255) as Hd
      by (destruct r; [apply H1 | apply H2]).
    split; [exact Ha|]. rewrite Hb. unfold u8. split; intros Hc.
    + apply Z.mod_small. lia.
    + rewrite Hc. reflexivity.
Qed.

Lemma ones_digit_in_range_witness :
  d2_num (player RefP1 (handle_button RefP1 (env false false 0) w_9_release))
  = 0
  ∧ d1_num (player RefP1 (handle_button RefP1 (env false false 0) w_9_release))
    = d1_num (player RefP1 w_9_release) + 1.
Proof.
  destruct (proj2 (proj2 (ones_digit_in_range w_9_release
                            (reachable_run _ _ reachable_setup)))
              RefP1 (env false false 0)) as (Ha & Hb & _).
  - vm_compute. reflexivity.
  - vm_compute. reflexivity.
  - vm_compute. reflexivity.
  - split; [exact Ha|]. apply Hb. vm_compute. reflexivity.
Defined.

(** ** The win evaluation *)

Lemma check_win_spec w :
  winner_found w = false → p1_is_winner w = false →
  (p1_won (check_win w) ↔ p1_win_condition w = true)
  ∧ (p2_won (check_win w)
     ↔ p1_win_condition w = false ∧ p2_win_condition w = true)
  ∧ (no_winner (check_win w)
     ↔ p1_win_condition w = false ∧ p2_win_condition w = false).
Proof.
  intros Hw Hp. unfold check_win, p1_won, p2_won, no_winner.
  destruct (p1_win_condition w), (p2_win_condition w); simpl;
    rewrite ?Hw, ?Hp; intuition congruence.
Qed.

Lemma score_small p : 0 ≤ combined p ≤ 255 → score p = combined p.
Proof.
  unfold score, combined, u8, NUM_DIGITS. intros H. apply Z.mod_small. lia.
Qed.

Lemma digits_ok_combined p : digits_ok p → 0 ≤ combined p.
Proof. unfold digits_ok, combined. lia. Qed.

Lemma win_conditions_small w :
  0 ≤ combined (p1 w) ≤ 255 → 0 ≤ combined (p2 w) ≤ 255 →
  (p1_win_condition w = true ↔ wins_by_two (p1 w) (p2 w))
  ∧ (p2_win_condition w = true ↔ wins_by_two (p2 w) (p1 w)).
Proof.
  intros H1 H2. unfold p1_win_condition, p2_win_condition, wins_by_two.
  rewrite (score_small (p1 w) H1), (score_small (p2 w) H2).
  unfold UP_TO_SCORE.
  rewrite !andb_true_iff, !bool_decide_eq_true. done.
Qed.

Lemma loop_open_state e1 e2 w :
  reachable w → winner_found w = false →
  loop e1 e2 w = check_win (polled e1 e2 w)
  ∧ winner_found (polled e1 e2 w) = false
  ∧ p1_is_winner (polled e1 e2 w) = false
  ∧ p1 (loop e1 e2 w) = p1 (polled e1 e2 w)
  ∧ p2 (loop e1 e2 w) = p2 (polled e1 e2 w).
Proof.
  intros Hr Hw. destruct (reachable_invariant w Hr) as (_ & _ & Hf & _).
  destruct (polled_flags e1 e2 w) as [Ha Hb].
  rewrite (loop_flags_open e1 e2 w Hw).
  destruct (check_win_frame (polled e1 e2 w)) as (-> & -> & _).
  rewrite Ha, Hb. auto.
Qed.

(** C8: a reachable world is in exactly one of the three match states;
    a decided match stays decided for the same player, and an undecided
    one becomes decided only in a cycle whose win check fires, for the one
    player whose branch of the check is taken. *)
Theorem match_state_exclusive w :
  reachable w →
  (no_winner w ∧ ¬ p1_won w ∧ ¬ p2_won w
   ∨ ¬ no_winner w ∧ p1_won w ∧ ¬ p2_won w
   ∨ ¬ no_winner w ∧ ¬ p1_won w ∧ p2_won w)
  ∧ (∀ e1 e2,
       (p1_won w → p1_won (loop e1 e2 w))
       ∧ (p2_won w → p2_won (loop e1 e2 w))
       ∧ ¬ (p1_won (loop e1 e2 w) ∧ p2_won (loop e1 e2 w))
       ∧ (no_winner w →
            (p1_won (loop e1 e2 w)
             ↔ p1_win_condition (polled e1 e2 w) = true)
            ∧ (p2_won (loop e1 e2 w)
               ↔ p1_win_condition (polled e1 e2 w) = false
                 ∧ p2_win_condition (polled e1 e2 w) = true)
            ∧ (no_winner (loop e1 e2 w)
               ↔ p1_win_condition (polled e1 e2 w) = false
                 ∧ p2_win_condition (polled e1 e2 w) = false))).
Proof.
  intros Hr. pose proof (reachable_invariant w Hr) as (_ & _ & Hf & _).
  split.
  - unfold no_winner, p1_won, p2_won.
    destruct (winner_found w), (p1_is_winner w); try (specialize (Hf eq_refl));
      intuition congruence.
  - intros e1 e2. split; [|split; [|split]].
    + intros [Hw Hp]. destruct (loop_flags_won e1 e2 w Hw) as [Ha Hb].
      unfold p1_won. by rewrite Ha, Hb.
    + intros [Hw Hp]. destruct (loop_flags_won e1 e2 w Hw) as [Ha Hb].
      unfold p2_won. by rewrite Ha, Hb.
    + unfold p1_won, p2_won. intros [[_ Ha] [_ Hb]]. congruence.
    + intros [Hw _].
      destruct (loop_open_state e1 e2 w Hr Hw) as (-> & Ha & Hb & _).
      apply (check_win_spec _ Ha Hb).
Qed.

Lemma match_state_exclusive_witness :
  p1_won (loop idle.1 idle.2 w_20_0)
  ∧ p1_won (loop p1_press.1 p1_press.2 w_p1_won)
  ∧ (¬ no_winner w_p1_won ∧ p1_won w_p1_won ∧ ¬ p2_won w_p1_won).
Proof.
  split; [|split].
  - destruct (proj2 (match_state_exclusive w_20_0
                       (reachable_run _ _ reachable_setup)) idle.1 idle.2)
      as (_ & _ & _ & Hopen).
    destruct Hopen as (Hiff & _).
    + split; vm_compute; reflexivity.
    + apply Hiff. vm_compute. reflexivity.
  - destruct (proj2 (match_state_exclusive w_p1_won
                       (reachable_run _ _ reachable_setup))
                p1_press.1 p1_press.2) as (Hkeep & _).
    apply Hkeep. split; vm_compute; reflexivity.
  - destruct (proj1 (match_state_exclusive w_p1_won
                       (reachable_run _ _ reachable_setup)))
      as [(Hn & _)|[H|(_ & _ & H2)]].
    + exfalso. destruct Hn as [Hn _]. vm_compute in Hn. discriminate Hn.
    + exact H.
    + exfalso. destruct H2 as [_ H2]. vm_compute in H2. discriminate H2.
Defined.

(** C1, for scores up to 255: in a cycle that starts undecided and ends with both
    combined scores at most 255, player 1 is declared the winner exactly
    when its combined score is at least 21 and exceeds player 2's by two
    or more, and likewise player 2; the two cannot hold together, and the
    check of player 1 comes first. *)
Theorem win_by_two_iff w e1 e2 :
  reachable w → winner_found w = false →
  combined (p1 (loop e1 e2 w)) ≤ 255 →
  combined (p2 (loop e1 e2 w)) ≤ 255 →
  (p1_won (loop e1 e2 w)
   ↔ wins_by_two (p1 (loop e1 e2 w)) (p2 (loop e1 e2 w)))
  ∧ (p2_won (loop e1 e2 w)
     ↔ wins_by_two (p2 (loop e1 e2 w)) (p1 (loop e1 e2 w)))
  ∧ ¬ (p1_won (loop e1 e2 w) ∧ p2_won (loop e1 e2 w))
  ∧ ¬ (wins_by_two (p1 (loop e1 e2 w)) (p2 (loop e1 e2 w))
       ∧ wins_by_two (p2 (loop e1 e2 w)) (p1 (loop e1 e2 w)))
  ∧ (p1_win_condition (polled e1 e2 w) = true → p1_won (loop e1 e2 w)).
Proof.
  intros Hr Hw H1 H2.
  pose proof (reachable_invariant _ (reachable_loop e1 e2 w Hr))
    as (Hd1%digits_ok_combined & Hd2%digits_ok_combined & _).
  destruct (loop_open_state e1 e2 w Hr Hw) as (Hl & Ha & Hb & Hp1 & Hp2).
  rewrite Hp1, Hp2 in *. rewrite Hl.
  destruct (check_win_spec _ Ha Hb) as (C1 & C2 & _).
  destruct (win_conditions_small (polled e1 e2 w)) as [W1 W2]; [lia..|].
  assert (¬ (wins_by_two (p1 (polled e1 e2 w)) (p2 (polled e1 e2 w))
             ∧ wins_by_two (p2 (polled e1 e2 w)) (p1 (polled e1 e2 w))))
    as Hex by (unfold wins_by_two; lia).
  split; [|split; [|split; [|split]]].
  - rewrite C1. exact W1.
  - rewrite C2. split.
    + intros [_ H]. by apply W2.
    + intros H. split; [|by apply W2].
      destruct (p1_win_condition (polled e1 e2 w)) eqn:E; [|done].
      exfalso. apply Hex. split; [by apply W1|done].
  - unfold p1_won, p2_won. intros [[_ Hx] [_ Hy]]. congruence.
  - exact Hex.
  - apply C1.
Qed.

Lemma win_by_two_iff_witness :
  p1_won (loop idle.1 idle.2 w_20_0)
  ↔ wins_by_two (p1 (loop idle.1 idle.2 w_20_0))
                (p2 (loop idle.1 idle.2 w_20_0)).
Proof.
  refine (proj1 (win_by_two_iff w_20_0 idle.1 idle.2 _ _ _ _)).
  - apply reachable_run, reachable_setup.
  - vm_compute. reflexivity.
  - vm_compute. discriminate.
  - vm_compute. discriminate.
Defined.

(** The scenario of the specification: 20 to 0, player 1 scores, and is
    declared the winner at 21. *)
Example p1_wins_at_21 :
  combined (p1 (loop idle.1 idle.2 w_20_0)) = 21
  ∧ p1_won (loop idle.1 idle.2 w_20_0).
Proof. by vm_compute. Qed.

Lemma w_255_254_cycle :
  winner_found w_255_254 = false
  ∧ combined (p1 w_255_254) = 255 ∧ combined (p2 w_255_254) = 254
  ∧ combined (p1 (loop idle.1 idle.2 w_255_254)) = 256
  ∧ combined (p2 (loop idle.1 idle.2 w_255_254)) = 254
  ∧ winner_found (loop idle.1 idle.2 w_255_254) = true
  ∧ p1_is_winner (loop idle.1 idle.2 w_255_254) = false.
Proof. repeat split; vm_compute; reflexivity. Qed.

(** C1 as stated fails once a combined score passes 255: from 255 to 254
    (reached by tied scoring), player 1 scores and leads 256 to 254, its
    8-bit score reads 0, and the check declares player 2 the winner. *)
Lemma win_rule_fails_past_255 :
  reachable w_255_254 ∧ winner_found w_255_254 = false
  ∧ wins_by_two (p1 (loop idle.1 idle.2 w_255_254))
                (p2 (loop idle.1 idle.2 w_255_254))
  ∧ ¬ p1_won (loop idle.1 idle.2 w_255_254)
  ∧ p2_won (loop idle.1 idle.2 w_255_254)
  ∧ ¬ wins_by_two (p2 (loop idle.1 idle.2 w_255_254))
                  (p1 (loop idle.1 idle.2 w_255_254)).
Proof.
  destruct w_255_254_cycle as (H0 & H1 & H2 & H3 & H4 & H5 & H6).
  unfold wins_by_two, p1_won, p2_won. rewrite H3, H4, H5, H6.
  split; [apply reachable_run, reachable_setup|].
  split; [exact H0|]. clear.
  split; [lia|]. split; [intros [_ ?]; discriminate|].
  split; [split; reflexivity|].
  intros [_ ?]. lia.
Qed.

(** ** Output actions of one cycle *)

Lemma button_events_local r e w1 w2 :
  player r w1 = player r w2 → button_events r e w1 = button_events r e w2.
Proof.
  intros H. unfold button_events, is_press, is_hold, held_ms. by rewrite H.
Qed.

Lemma rendered_player r w : player r (rendered w) = player r w.
Proof.
  destruct (rendered_globals w) as (H1 & H2 & _).
  destruct r; cbn [player]; assumption.
Qed.

Lemma rendered_trace w :
  trace (board (rendered w))
  = trace (board w) ++ score_writes (p1 w) ++ score_writes (p2 w).
Proof.
  unfold rendered, score_writes. cbv zeta.
  rewrite displaySecondDigit_trace, displayFirstDigit_trace,
    displaySecondDigit_trace, displayFirstDigit_trace.
  frame. cbn [player]. by rewrite <- !app_assoc.
Qed.

Lemma blank_digit_writes pins :
  digit_writes pins (-1) = (λ i, EvWrite (pins !!! i) OFF) <$> segment_indices.
Proof. reflexivity. Qed.

Lemma blinkWinner_trace r w :
  trace (board (blinkWinner r w))
  = trace (board w) ++ blink_sequence (player r w).
Proof.
  unfold blinkWinner, blink_sequence, blank_writes, score_writes. cbv zeta.
  rewrite delay_trace, displaySecondDigit_trace, displayFirstDigit_trace,
    delay_trace, displaySecondDigit_trace, displayFirstDigit_trace.
  frame. rewrite !blank_digit_writes. unfold SCORE_BLINK_MS.
  by rewrite <- !app_assoc.
Qed.

Lemma polled_trace e1 e2 w :
  trace (board (polled e1 e2 w))
  = trace (board w) ++ score_writes (p1 w) ++ score_writes (p2 w)
    ++ button_events RefP1 e1 w ++ button_events RefP2 e2 w.
Proof.
  unfold polled.
  rewrite (handle_button_trace RefP2 e2), (handle_button_trace RefP1 e1).
  rewrite rendered_trace.
  rewrite (button_events_local RefP1 e1 (rendered w) w
             (rendered_player RefP1 w)).
  rewrite (button_events_local RefP2 e2 (handle_button RefP1 e1 (rendered w)) w).
  - by rewrite <- !app_assoc.
  - rewrite <- (rendered_player RefP2 w).
    exact (handle_button_other RefP1 e1 (rendered w)).
Qed.

Lemma blink_sequence_local p q :
  d1_pins p = d1_pins q → d2_pins p = d2_pins q →
  d1_num p = d1_num q → d2_num p = d2_num q →
  blink_sequence p = blink_sequence q.
Proof.
  intros Ha Hb Hc Hd.
  unfold blink_sequence, blank_writes, score_writes.
  by rewrite Ha, Hb, Hc, Hd.
Qed.

Lemma polled_player_frozen r e1 e2 w :
  winner_found w = true →
  d1_pins (player r (polled e1 e2 w)) = d1_pins (player r w)
  ∧ d2_pins (player r (polled e1 e2 w)) = d2_pins (player r w)
  ∧ d1_num (player r (polled e1 e2 w)) = d1_num (player r w)
  ∧ d2_num (player r (polled e1 e2 w)) = d2_num (player r w).
Proof.
  intros Hw. rewrite polled_player.
  destruct (handle_button_pins r (sel r e1 e2) w) as [-> ->].
  destruct (handle_button_digits r (sel r e1 e2) w) as [-> ->]; [|done].
  rewrite Hw. by rewrite andb_false_r.
Qed.

Lemma loop_won e1 e2 w :
  winner_found w = true →
  loop e1 e2 w = blinkWinner (winner w) (polled e1 e2 w).
Proof.
  intros Hw. rewrite loop_unfold. cbv zeta. unfold winner.
  destruct (polled_flags e1 e2 w) as [-> ->]. rewrite Hw. cbn [negb].
  by destruct (p1_is_winner w).
Qed.

Lemma loop_won_emitted e1 e2 w :
  winner_found w = true →
  emitted (loop e1 e2) w
  = score_writes (p1 w) ++ score_writes (p2 w)
    ++ button_events RefP1 e1 w ++ button_events RefP2 e2 w
    ++ blank_writes (player (winner w) w) ++ [EvDelay 500]
    ++ score_writes (player (winner w) w) ++ [EvDelay 500].
Proof.
  intros Hw. apply emitted_app. rewrite (loop_won e1 e2 w Hw).
  rewrite blinkWinner_trace, polled_trace.
  destruct (polled_player_frozen (winner w) e1 e2 w Hw) as (Ha & Hb & Hc & Hd).
  rewrite (blink_sequence_local _ _ Ha Hb Hc Hd).
  unfold blink_sequence. by rewrite <- !app_assoc.
Qed.

(** C7, in the order of the source: in a cycle that starts with a winner, [loop] first
    renders both players' scores as always, then polls the two buttons,
    and then, in place of the win check, performs the blink of the
    winner: its two displays blank, a pause of 500 ms, its two score
    digits, a pause of 500 ms. *)
Theorem blink_follows_render w e1 e2 :
  winner_found w = true →
  loop e1 e2 w = blinkWinner (winner w) (polled e1 e2 w)
  ∧ emitted (loop e1 e2) w
    = score_writes (p1 w) ++ score_writes (p2 w)
      ++ button_events RefP1 e1 w ++ button_events RefP2 e2 w
      ++ blank_writes (player (winner w) w) ++ [EvDelay 500]
      ++ score_writes (player (winner w) w) ++ [EvDelay 500].
Proof.
  intros Hw. split; [by apply loop_won | by apply loop_won_emitted].
Qed.

Lemma blink_follows_render_witness :
  loop idle.1 idle.2 w_p1_won
  = blinkWinner (winner w_p1_won) (polled idle.1 idle.2 w_p1_won).
Proof.
  refine (proj1 (blink_follows_render w_p1_won idle.1 idle.2 _)).
  vm_compute. reflexivity.
Defined.

(** C7 as stated fails: with player 1 the winner at 21 to 0, the writes
    of one cycle on player 1's display pins are the normal rendering of 2
    and 1 followed by the blink, not the blink alone. *)
Lemma winner_is_rendered_before_blink :
  winner_found w_p1_won = true ∧ winner w_p1_won = RefP1
  ∧ writes_on (display_pins (p1 w_p1_won)) (emitted (loop idle.1 idle.2) w_p1_won)
    = score_writes (p1 w_p1_won) ++ blank_writes (p1 w_p1_won)
      ++ score_writes (p1 w_p1_won)
  ∧ writes_on (display_pins (p1 w_p1_won)) (emitted (loop idle.1 idle.2) w_p1_won)
    ≠ blank_writes (p1 w_p1_won) ++ score_writes (p1 w_p1_won).
Proof.
  split; [by vm_compute|]. split; [by vm_compute|].
  split; [by vm_compute|]. vm_compute. discriminate.
Qed.

(** ** Hold to reset *)

Lemma reset_fired_iff r e w :
  reset_fired (handle_button r e) w
  ↔ is_hold r e w = true ∧ held_ms r e w >= BUTTON_HOLD_MS.
Proof.
  unfold reset_fired.
  rewrite (emitted_app _ _ _ (handle_button_trace r e w)).
  unfold button_events, is_press, is_hold, reset_event.
  destruct (digitalRead e (button_pin r)), (prev_button_state (player r w));
    cbn [andb negb]; try case_bool_decide;
    rewrite ?list_elem_of_singleton, ?elem_of_nil; intuition congruence.
Qed.

Lemma at_button_player r c w : player r (at_button r c w) = player r w.
Proof.
  destruct r; cbn [at_button].
  - apply rendered_player.
  - rewrite <- (rendered_player RefP2 w).
    exact (handle_button_other RefP1 c.1 (rendered w)).
Qed.

Lemma cycle_resets_iff r c w :
  cycle_resets r c w
  ↔ pressed r c = true ∧ prev_button_state (player r w) = true
    ∧ u32 (time_at r c - start (player r w)) >= BUTTON_HOLD_MS.
Proof.
  unfold cycle_resets. rewrite reset_fired_iff.
  unfold is_hold, held_ms, pressed, time_at. rewrite at_button_player.
  rewrite andb_true_iff. tauto.
Qed.

Lemma loop_trace_polled e1 e2 w :
  ∃ rest, trace (board (loop e1 e2 w))
          = trace (board (polled e1 e2 w)) ++ rest
          ∧ (rest = [] ∨ ∃ p, rest = blink_sequence p).
Proof.
  rewrite loop_unfold. cbv zeta.
  destruct (negb (winner_found (polled e1 e2 w))).
  - exists []. destruct (check_win_frame (polled e1 e2 w)) as (_ & _ & ->).
    rewrite app_nil_r. auto.
  - destruct (p1_is_winner (polled e1 e2 w)); eexists;
      (split; [apply blinkWinner_trace|right; by eexists]).
Qed.

(** A reset fired by either handler shows in the trace of the cycle. *)
Lemma cycle_resets_emitted r c w :
  cycle_resets r c w → reset_event ∈ emitted (loop c.1 c.2) w.
Proof.
  intros H. apply cycle_resets_iff in H as (Hp & Hprev & Hms).
  destruct (loop_trace_polled c.1 c.2 w) as (rest & Hrest & _).
  rewrite polled_trace in Hrest. rewrite <- !app_assoc in Hrest.
  rewrite (emitted_app _ _ _ Hrest).
  assert (reset_event ∈ button_events r (sel r c.1 c.2) w) as Hin.
  { unfold button_events, is_press, is_hold, held_ms.
    unfold pressed, time_at in *. rewrite Hp, Hprev. cbn [andb negb].
    rewrite bool_decide_true by done. by left. }
  destruct r; cbn [sel] in Hin; set_solver.
Qed.

Lemma reset_not_a_write (f : fin SEVEN_SEGMENTS → Event) :
  (∀ i, f i ≠ reset_event) → reset_event ∉ f <$> segment_indices.
Proof.
  intros Hf (i & Hi & _)%list_elem_of_fmap. by apply (Hf i).
Qed.

Lemma reset_not_in_score_writes p : reset_event ∉ score_writes p.
Proof.
  unfold score_writes, digit_writes. rewrite not_elem_of_app.
  split; by apply reset_not_a_write.
Qed.

Lemma reset_not_in_blink p : reset_event ∉ blink_sequence p.
Proof.
  unfold blink_sequence, blank_writes.
  pose proof (reset_not_in_score_writes p) as Hs.
  rewrite !elem_of_app, !list_elem_of_singleton.
  intros [[H|H]|[H|[H|H]]]; try done.
  - by apply reset_not_a_write in H.
  - by apply reset_not_a_write in H.
Qed.

(** Conversely, a reset in the trace of a cycle comes from the hold
    branch of one of the two handlers. *)
Lemma reset_origin c w :
  reset_event ∈ emitted (loop c.1 c.2) w →
  cycle_resets RefP1 c w ∨ cycle_resets RefP2 c w.
Proof.
  destruct (loop_trace_polled c.1 c.2 w) as (rest & Hrest & Hform).
  rewrite polled_trace in Hrest. rewrite <- !app_assoc in Hrest.
  rewrite (emitted_app _ _ _ Hrest). rewrite !elem_of_app.
  assert (∀ r, reset_event ∈ button_events r (sel r c.1 c.2) w →
               cycle_resets r c w) as Hb.
  { intros r. rewrite cycle_resets_iff.
    unfold button_events, is_press, is_hold, held_ms, pressed, time_at.
    destruct (digitalRead (sel r c.1 c.2) (button_pin r)),
      (prev_button_state (player r w)); cbn [andb negb];
      try match goal with
          | |- context [bool_decide ?P] => destruct (bool_decide_reflect P)
          end;
      rewrite ?list_elem_of_singleton, ?elem_of_nil; intros ?;
      try done; repeat split; done. }
  intros [H|[H|[H|[H|H]]]].
  - by apply reset_not_in_score_writes in H.
  - by apply reset_not_in_score_writes in H.
  - left. by apply (Hb RefP1).
  - right. by apply (Hb RefP2).
  - destruct Hform as [->|[p ->]]; [by apply elem_of_nil in H|].
    by apply reset_not_in_blink in H.
Qed.


Lemma run_cons c es w : run (c :: es) w = run es (loop c.1 c.2 w).
Proof. reflexivity. Qed.





(** ** Levels on the display pins *)

Lemma vec7_to_list (pins : vec Z SEVEN_SEGMENTS) :
  vec_to_list pins = (λ i, pins !!! i) <$> segment_indices.
Proof.
  unfold SEVEN_SEGMENTS in *. inv_vec pins. reflexivity.
Qed.

Lemma digit_assignments_pins pins num :
  (digit_assignments pins num).*1 = vec_to_list pins.
Proof.
  rewrite vec7_to_list. unfold digit_assignments.
  rewrite <- list_fmap_compose. reflexivity.
Qed.

Lemma segment_index_listed (i : fin SEVEN_SEGMENTS) : i ∈ segment_indices.
Proof.
  unfold SEVEN_SEGMENTS, segment_indices in *.
  repeat (inv_fin i; [set_solver|intros i]). inv_fin i.
Qed.

Lemma vlookup_listed (pins : vec Z SEVEN_SEGMENTS) i :
  pins !!! i ∈ vec_to_list pins.
Proof.
  rewrite vec7_to_list. apply list_elem_of_fmap.
  exists i. split; [done|apply segment_index_listed].
Qed.

Lemma displayFirstDigit_levels_other r num w q pins :
  d1_pins (player r w) = pins → q ∉ vec_to_list pins →
  pin_levels (board (displayFirstDigit r num w)) !! q
  = pin_levels (board w) !! q.
Proof.
  intros <- H. rewrite displayFirstDigit_writes.
  apply write_list_levels_other. by rewrite digit_assignments_pins.
Qed.

Lemma displaySecondDigit_levels_other r num w q pins :
  d2_pins (player r w) = pins → q ∉ vec_to_list pins →
  pin_levels (board (displaySecondDigit r num w)) !! q
  = pin_levels (board w) !! q.
Proof.
  intros <- H. rewrite displaySecondDigit_writes.
  apply write_list_levels_other. by rewrite digit_assignments_pins.
Qed.

Lemma displayFirstDigit_levels_in r num w i pins :
  d1_pins (player r w) = pins → NoDup (vec_to_list pins) →
  pin_levels (board (displayFirstDigit r num w)) !! (pins !!! i)
  = Some (segment_level num i).
Proof.
  intros <- H. rewrite displayFirstDigit_writes.
  apply write_list_levels_in; [by rewrite digit_assignments_pins|].
  unfold digit_assignments. apply list_elem_of_fmap.
  exists i. split; [done|apply segment_index_listed].
Qed.

Lemma displaySecondDigit_levels_in r num w i pins :
  d2_pins (player r w) = pins → NoDup (vec_to_list pins) →
  pin_levels (board (displaySecondDigit r num w)) !! (pins !!! i)
  = Some (segment_level num i).
Proof.
  intros <- H. rewrite displaySecondDigit_writes.
  apply write_list_levels_in; [by rewrite digit_assignments_pins|].
  unfold digit_assignments. apply list_elem_of_fmap.
  exists i. split; [done|apply segment_index_listed].
Qed.

(** The 28 display pins of a wired board are pairwise distinct. *)
Lemma wiring_distinct w : wiring_ok w → NoDup (all_pins w).
Proof.
  intros (Ha & Hb & Hc & Hd). unfold all_pins, display_pins.
  cbn [player]. rewrite Ha, Hb, Hc, Hd.
  apply (bool_decide_unpack _). by vm_compute.
Qed.

(** Skipping a later write sequence that does not touch the pin. *)
Ltac skip_first pins :=
  rewrite (displayFirstDigit_levels_other _ _ _ _ pins);
    [|frame; reflexivity|done].
Ltac skip_second pins :=
  rewrite (displaySecondDigit_levels_other _ _ _ _ pins);
    [|frame; reflexivity|done].

(** After "DISPLAY SCORES" every display pin carries the level of its
    segment for the digit of its player. *)
Lemma rendered_levels w r i :
  NoDup (all_pins w) →
  pin_levels (board (rendered w)) !! (d1_pins (player r w) !!! i)
  = Some (segment_level (d1_num (player r w)) i)
  ∧ pin_levels (board (rendered w)) !! (d2_pins (player r w) !!! i)
    = Some (segment_level (d2_num (player r w)) i).
Proof.
  intros Hnd. unfold all_pins, display_pins in Hnd.
  apply NoDup_app in Hnd as (Hn1 & H12 & Hn2).
  apply NoDup_app in Hn1 as (HA & HAB & HB).
  apply NoDup_app in Hn2 as (HC & HCD & HD).
  set (A := d1_pins (player RefP1 w)) in *.
  set (B := d2_pins (player RefP1 w)) in *.
  set (C := d1_pins (player RefP2 w)) in *.
  set (D := d2_pins (player RefP2 w)) in *.
  pose proof (vlookup_listed A i) as IA. pose proof (vlookup_listed B i) as IB.
  pose proof (vlookup_listed C i) as IC. pose proof (vlookup_listed D i) as ID.
  assert (A !!! i ∉ vec_to_list B) by (by apply HAB).
  assert (A !!! i ∉ vec_to_list C) by (intros ?; apply (H12 (A !!! i)); set_solver).
  assert (A !!! i ∉ vec_to_list D) by (intros ?; apply (H12 (A !!! i)); set_solver).
  assert (B !!! i ∉ vec_to_list C) by (intros ?; apply (H12 (B !!! i)); set_solver).
  assert (B !!! i ∉ vec_to_list D) by (intros ?; apply (H12 (B !!! i)); set_solver).
  assert (C !!! i ∉ vec_to_list D) by (by apply HCD).
  unfold rendered. cbv zeta. frame.
  change (p1 w) with (player RefP1 w). change (p2 w) with (player RefP2 w).
  destruct r; split; fold A B C D.
  - skip_second D. skip_first C. skip_second B.
    apply displayFirstDigit_levels_in; done.
  - skip_second D. skip_first C.
    apply displaySecondDigit_levels_in; [frame; reflexivity|done].
  - skip_second D.
    apply displayFirstDigit_levels_in; [frame; reflexivity|done].
  - apply displaySecondDigit_levels_in; [frame; reflexivity|done].
Qed.

Lemma blinkWinner_levels_other r w q :
  q ∉ display_pins (player r w) →
  pin_levels (board (blinkWinner r w)) !! q = pin_levels (board w) !! q.
Proof.
  unfold display_pins. rewrite not_elem_of_app. intros [H1 H2].
  unfold blinkWinner. cbv zeta. rewrite !delay_levels.
  rewrite (displaySecondDigit_levels_other _ _ _ _ (d2_pins (player r w)));
    [|frame; reflexivity|done].
  rewrite (displayFirstDigit_levels_other _ _ _ _ (d1_pins (player r w)));
    [|frame; reflexivity|done].
  rewrite delay_levels.
  rewrite (displaySecondDigit_levels_other _ _ _ _ (d2_pins (player r w)));
    [|frame; reflexivity|done].
  by rewrite (displayFirstDigit_levels_other _ _ _ _ (d1_pins (player r w))).
Qed.

Lemma polled_levels e1 e2 w :
  pin_levels (board (polled e1 e2 w)) = pin_levels (board (rendered w)).
Proof. unfold polled. by rewrite !handle_button_board. Qed.

(** The two players own disjoint display pins. *)
Lemma loser_pins_apart w q :
  NoDup (all_pins w) →
  q ∈ display_pins (player (loser w) w) →
  q ∉ display_pins (player (winner w) w).
Proof.
  unfold all_pins, loser, winner.
  intros (_ & Hdis & _)%NoDup_app Hq Hq'.
  destruct (p1_is_winner w); cbn [other] in *; by apply (Hdis q).
Qed.

Lemma digit_is_visible d : 0 ≤ d ≤ 9 → lit_segments d ≠ [].
Proof.
  intros Hd.
  destruct (digit_cases d Hd) as [->|[->|[->|[->|[->|[->|[->|[->|[->| ->]]]]]]]]];
    vm_compute; discriminate.
Qed.

(** C9: in a cycle that starts with a winner, the first actions of
    [loop] are the normal rendering of both players, the loser included;
    the loser's digits do not change; and when the cycle ends, blink
    included, every pin of the loser's two displays still carries the
    level of its segment for the loser's digit, a pattern with lit
    segments for every digit in [0,9]. *)
Theorem loser_display_kept w e1 e2 :
  reachable w → winner_found w = true →
  (∃ rest, emitted (loop e1 e2) w
           = score_writes (p1 w) ++ score_writes (p2 w) ++ rest)
  ∧ d1_num (player (loser w) (loop e1 e2 w)) = d1_num (player (loser w) w)
  ∧ d2_num (player (loser w) (loop e1 e2 w)) = d2_num (player (loser w) w)
  ∧ (∀ i,
       pin_levels (board (loop e1 e2 w)) !! (d1_pins (player (loser w) w) !!! i)
       = Some (segment_level (d1_num (player (loser w) w)) i)
       ∧ pin_levels (board (loop e1 e2 w)) !! (d2_pins (player (loser w) w) !!! i)
         = Some (segment_level (d2_num (player (loser w) w)) i))
  ∧ lit_segments (d2_num (player (loser w) w)) ≠ []
  ∧ (d1_num (player (loser w) w) ≤ 9 →
     lit_segments (d1_num (player (loser w) w)) ≠ []).
Proof.
  intros Hr Hw.
  pose proof (reachable_invariant w Hr) as (Hd1 & Hd2 & _ & Hwire).
  pose proof (wiring_distinct w Hwire) as Hnd.
  split; [|split; [|split; [|split; [|split]]]].
  - eexists. apply (loop_won_emitted e1 e2 w Hw).
  - rewrite loop_player. apply handle_button_digits.
    rewrite Hw. by rewrite andb_false_r.
  - rewrite loop_player. apply handle_button_digits.
    rewrite Hw. by rewrite andb_false_r.
  - intros i. rewrite (loop_won e1 e2 w Hw).
    destruct (polled_player_frozen (winner w) e1 e2 w Hw) as (Ha & Hb & _).
    assert (∀ q, q ∈ display_pins (player (loser w) w) →
                 pin_levels (board (blinkWinner (winner w) (polled e1 e2 w))) !! q
                 = pin_levels (board (rendered w)) !! q) as Hkeep.
    { intros q Hq. rewrite blinkWinner_levels_other, polled_levels; [done|].
      unfold display_pins. rewrite Ha, Hb.
      by apply loser_pins_apart. }
    rewrite !Hkeep.
    + by apply rendered_levels.
    + unfold display_pins. apply elem_of_app. right. apply vlookup_listed.
    + unfold display_pins. apply elem_of_app. left. apply vlookup_listed.
  - apply digit_is_visible.
    unfold loser, winner. by destruct (p1_is_winner w); [apply Hd2|apply Hd1].
  - intros H9. apply digit_is_visible.
    unfold loser, winner in *.
    destruct (p1_is_winner w); cbn [other player] in *;
      [destruct Hd2 as [_ ?]|destruct Hd1 as [_ ?]]; lia.
Qed.

Lemma loser_display_kept_witness :
  d1_num (player (loser w_p1_won) (loop idle.1 idle.2 w_p1_won))
  = d1_num (player (loser w_p1_won) w_p1_won).
Proof.
  refine (proj1 (proj2 (loser_display_kept w_p1_won idle.1 idle.2 _ _))).
  - apply reachable_run, reachable_setup.
  - vm_compute. reflexivity.
Defined.

(** ** Tied scoring reaches every digit pair *)

Lemma run_app es1 es2 w : run (es1 ++ es2) w = run es2 (run es1 w).
Proof. unfold run. by rewrite foldl_app. Qed.

Lemma handle_button_press r e w :
  digitalRead e (button_pin r) = true →
  prev_button_state (player r w) = false →
  prev_button_state (player r (handle_button r e w)) = true
  ∧ digits (player r (handle_button r e w)) = digits (player r w).
Proof.
  intros Hd Hp. unfold digits.
  destruct (handle_button_state r e w) as (_ & -> & _).
  destruct (handle_button_digits r e w) as [-> ->]; [|done].
  unfold is_release. by rewrite Hd.
Qed.

Lemma handle_button_release r e w :
  digitalRead e (button_pin r) = false →
  prev_button_state (player r w) = true →
  winner_found w = false →
  prev_button_state (player r (handle_button r e w)) = false
  ∧ digits (player r (handle_button r e w)) = bump (digits (player r w)).
Proof.
  intros Hd Hp Hw.
  destruct (handle_button_state r e w) as (_ & -> & _).
  split; [done|]. clear -Hd Hp Hw. unfold digits, bump.
  unfold handle_button, update, reset_game.
  destruct r, w as [[] [] ? ? []]; simpl in *; subst;
    rewrite Hd; simpl; by case_bool_decide.
Qed.

Lemma check_win_tied w :
  winner_found w = false →
  digits (player RefP1 w) = digits (player RefP2 w) →
  winner_found (check_win w) = false.
Proof.
  intros Hw [= H1 H2].
  unfold check_win, p1_win_condition, p2_win_condition, score.
  rewrite H1, H2.
  repeat case_bool_decide; simpl; try done; lia.
Qed.

Lemma loop_keeps_tie c w :
  winner_found w = false →
  digits (player RefP1 (handle_button RefP1 c.1 w))
  = digits (player RefP2 (handle_button RefP2 c.2 w)) →
  winner_found (loop c.1 c.2 w) = false.
Proof.
  intros Hw Hd. rewrite (loop_flags_open _ _ _ Hw).
  apply check_win_tied.
  - by destruct (polled_flags c.1 c.2 w) as [-> _].
  - rewrite !polled_player. exact Hd.
Qed.

(** A joint press from a tie. *)
Lemma tied_press c w :
  tied w → pressed RefP1 c = true → pressed RefP2 c = true →
  winner_found (loop c.1 c.2 w) = false
  ∧ (∀ r, prev_button_state (player r (loop c.1 c.2 w)) = true
          ∧ digits (player r (loop c.1 c.2 w)) = digits (player r w)).
Proof.
  intros (Hw & Hp1 & Hp2 & Hd) Hc1 Hc2.
  destruct (handle_button_press RefP1 c.1 w Hc1 Hp1) as [Ha1 Hb1].
  destruct (handle_button_press RefP2 c.2 w Hc2 Hp2) as [Ha2 Hb2].
  split.
  - apply loop_keeps_tie; [done|]. by rewrite Hb1, Hb2.
  - intros r. rewrite loop_player. by destruct r.
Qed.

(** A joint release after it: the tie is kept and both gain a point. *)
Lemma tied_release c w :
  winner_found w = false →
  (∀ r, prev_button_state (player r w) = true) →
  digits (player RefP1 w) = digits (player RefP2 w) →
  pressed RefP1 c = false → pressed RefP2 c = false →
  tied (loop c.1 c.2 w)
  ∧ digits (player RefP1 (loop c.1 c.2 w)) = bump (digits (player RefP1 w)).
Proof.
  intros Hw Hp Hd Hc1 Hc2.
  destruct (handle_button_release RefP1 c.1 w Hc1 (Hp RefP1) Hw) as [Ha1 Hb1].
  destruct (handle_button_release RefP2 c.2 w Hc2 (Hp RefP2) Hw) as [Ha2 Hb2].
  unfold tied. rewrite !loop_player. cbn [sel].
  rewrite Ha1, Ha2, Hb1, Hb2, Hd.
  repeat split. apply loop_keeps_tie; [done|]. by rewrite Hb1, Hb2, Hd.
Qed.

Lemma run_nil w : run [] w = w.
Proof. reflexivity. Qed.

(** One joint press and release keeps the tie and adds a point. *)
Lemma tied_round w :
  tied w →
  tied (run both_score w)
  ∧ digits (player RefP1 (run both_score w)) = bump (digits (player RefP1 w)).
Proof.
  intros Ht. unfold both_score. rewrite !run_cons, run_nil.
  destruct (tied_press (env true true 0, env true true 0) w Ht eq_refl eq_refl)
    as [Hw1 Hp].
  destruct (tied_release (env false false 0, env false false 0) _ Hw1
              (λ r, proj1 (Hp r))) as [Ht2 Hd2]; [|reflexivity..|].
  - rewrite (proj2 (Hp RefP1)), (proj2 (Hp RefP2)). apply Ht.
  - split; [exact Ht2|]. rewrite Hd2. by rewrite (proj2 (Hp RefP1)).
Qed.

Lemma tied_rounds n w :
  tied w →
  tied (run (repeat_cycles n both_score) w)
  ∧ digits (player RefP1 (run (repeat_cycles n both_score) w))
    = Nat.iter n bump (digits (player RefP1 w)).
Proof.
  revert w. induction n as [|n IH]; intros w Hw; [done|].
  cbn [repeat_cycles]. rewrite run_app.
  destruct (tied_round w Hw) as [Ht Hd].
  destruct (IH _ Ht) as [Ht' Hd']. split; [done|].
  rewrite Hd', Hd. by rewrite Nat.iter_succ_r.
Qed.

Lemma tied_initial : tied initial.
Proof. repeat split. Qed.

Lemma wrap_after_tie w :
  reachable w → tied w → digits (player RefP1 w) = (255, 9) →
  reachable (run [both_press] w)
  ∧ winner_found (run [both_press] w) = false
  ∧ is_release RefP1 (env false false 0) (run [both_press] w) = true
  ∧ digits (player RefP1 (run [both_press] w)) = (255, 9)
  ∧ digits (player RefP1 (handle_button RefP1 (env false false 0)
                            (run [both_press] w)))
    = (0, 0).
Proof.
  intros Hreach Ht Hn. unfold both_press. rewrite run_cons, run_nil.
  destruct (tied_press (env true true 0, env true true 0) w Ht eq_refl eq_refl)
    as [Hw1 Hp].
  destruct (Hp RefP1) as [Hprev Hdg]. rewrite Hn in Hdg.
  split; [by apply reachable_loop|].
  split; [exact Hw1|].
  split; [unfold is_release; rewrite Hprev; reflexivity|].
  split; [exact Hdg|].
  destruct (handle_button_release RefP1 (env false false 0) _
              eq_refl Hprev Hw1) as [_ ->].
  rewrite Hdg. vm_compute. reflexivity.
Qed.

Lemma iter_bump_2559 : Nat.iter 2559 bump (digits (player RefP1 initial)) = (255, 9).
Proof. vm_compute. reflexivity. Qed.

(** The world of the C3 counterexample is not an artefact: tied scoring
    leads from [setup] to a world without winner in which player 1 has
    the digits 255 and 9 and a release pending, and that release takes
    the digits to 0 and 0. *)
Lemma digits_255_9_reachable :
  ∃ w,
    reachable w
    ∧ winner_found w = false
    ∧ is_release RefP1 (env false false 0) w = true
    ∧ digits (player RefP1 w) = (255, 9)
    ∧ digits (player RefP1 (handle_button RefP1 (env false false 0) w))
      = (0, 0).
Proof.
  exists (run [both_press] (run (repeat_cycles 2559 both_score) initial)).
  destruct (tied_rounds 2559 initial tied_initial) as [Ht Hn].
  apply wrap_after_tie.
  - apply reachable_run, reachable_setup.
  - exact Ht.
  - rewrite Hn. exact iter_bump_2559.
Qed.

Lemma digits_inv p a b : digits p = (a, b) → d1_num p = a ∧ d2_num p = b.
Proof. unfold digits. by intros [= -> ->]. Qed.

Lemma carry_at_255_generic w :
  reachable w → tied w → digits (player RefP1 w) = (255, 9) →
  reachable (run [both_press] w)
  ∧ winner_found (run [both_press] w) = false
  ∧ is_release RefP1 (env false false 0) (run [both_press] w) = true
  ∧ d1_num (player RefP1 (run [both_press] w)) = 255
  ∧ d2_num (player RefP1 (run [both_press] w)) = 9
  ∧ d2_num (player RefP1 (handle_button RefP1 (env false false 0)
                            (run [both_press] w))) = 0
  ∧ d1_num (player RefP1 (handle_button RefP1 (env false false 0)
                            (run [both_press] w))) = 0.
Proof.
  intros Hr Ht Hd.
  destruct (wrap_after_tie w Hr Ht Hd) as (H1 & H2 & H3 & H4 & H5).
  destruct (digits_inv _ _ _ H4) as [H4a H4b].
  destruct (digits_inv _ _ _ H5) as [H5a H5b].
  split; [exact H1|]. split; [exact H2|]. split; [exact H3|].
  split; [exact H4a|]. split; [exact H4b|]. split; [exact H5b|exact H5a].
Qed.

(** C5 as stated fails in a reachable world: after 2559 tied points and
    one more press, player 1 has the digits 255 and 9 and a release
    pending; that release resets the ones digit to 0 and leaves the tens
    digit at 0, not at 256: the carry does not increment it. *)
Lemma carry_wraps_tens_at_255 :
  reachable w_tied_2559
  ∧ winner_found w_tied_2559 = false
  ∧ is_release RefP1 (env false false 0) w_tied_2559 = true
  ∧ d1_num (player RefP1 w_tied_2559) = 255
  ∧ d2_num (player RefP1 w_tied_2559) = 9
  ∧ d2_num (player RefP1 (handle_button RefP1 (env false false 0) w_tied_2559))
    = 0
  ∧ d1_num (player RefP1 (handle_button RefP1 (env false false 0) w_tied_2559))
    = 0
  ∧ d1_num (player RefP1 (handle_button RefP1 (env false false 0) w_tied_2559))
    ≠ d1_num (player RefP1 w_tied_2559) + 1.
Proof.
  destruct (tied_rounds 2559 initial tied_initial) as [Ht Hn].
  rewrite iter_bump_2559 in Hn.
  destruct (carry_at_255_generic _ (reachable_run _ _ reachable_setup) Ht Hn)
    as (H1 & H2 & H3 & H4 & H5 & H6 & H7).
  unfold w_tied_2559.
  split; [exact H1|]. split; [exact H2|]. split; [exact H3|].
  split; [exact H4|]. split; [exact H5|]. split; [exact H6|].
  split; [exact H7|]. rewrite H7, H4. discriminate.
Qed.

(** ** Scenarios of section 8 of the specification *)

Example deuce_needs_two_points :
  combined (p1 w_21_20) = 21 ∧ combined (p2 w_21_20) = 20
  ∧ winner_found w_21_20 = false
  ∧ combined (p1 (run [p1_press; idle] w_21_20)) = 22
  ∧ declared (run [p1_press; idle] w_21_20) = Some RefP1.
Proof. repeat split; vm_compute; reflexivity. Qed.

Example short_press_scores_once :
  combined (p1 (run short_press initial)) = 1
  ∧ bool_decide (reset_event ∈ trace (board (run short_press initial))) = false.
Proof. split; vm_compute; reflexivity. Qed.

Example hold_3500_resets :
  combined (p1 (run hold_3500 initial)) = 0
  ∧ bool_decide (reset_event ∈ trace (board (run hold_3500 initial))) = true
  ∧ pin_modes (board (run hold_3500 initial)) !! RESET = Some OUTPUT.
Proof. repeat split; vm_compute; reflexivity. Qed.

(** * Further properties of the sketch *)

(** ** Register assignments *)

Lemma assign_snoc {V} (kvs : list (Z * V)) k v m :
  assign (kvs ++ [(k, v)]) m = <[k := v]> (assign kvs m).
Proof. unfold assign. by rewrite foldl_snoc. Qed.

Lemma assign_union {V} (kvs : list (Z * V)) (m : gmap Z V) :
  assign kvs m = list_to_map (reverse kvs) ∪ m.
Proof.
  induction kvs as [|[k v] kvs IH] using rev_ind.
  - simpl. by rewrite (left_id_L ∅ (∪)).
  - rewrite assign_snoc, IH, reverse_snoc. simpl.
    by rewrite insert_union_l.
Qed.

Lemma assign_idemp {V} (kvs : list (Z * V)) (m : gmap Z V) :
  assign kvs (assign kvs m) = assign kvs m.
Proof.
  rewrite !assign_union, (assoc_L (∪)). by rewrite (idemp_L (∪)).
Qed.

Lemma assign_lookup_other {V} (kvs : list (Z * V)) (m : gmap Z V) q :
  q ∉ kvs.*1 → assign kvs m !! q = m !! q.
Proof.
  induction kvs as [|[k v] kvs IH] using rev_ind; [done|].
  rewrite fmap_app, not_elem_of_app. simpl. intros [Hq Hk].
  rewrite assign_snoc, lookup_insert_ne; [by apply IH|].
  intros ->. apply Hk. by left.
Qed.

Lemma assign_lookup_in {V} (kvs : list (Z * V)) (m : gmap Z V) q v :
  NoDup kvs.*1 → (q, v) ∈ kvs → assign kvs m !! q = Some v.
Proof.
  induction kvs as [|[k v'] kvs IH] using rev_ind; [by intros _ ?%elem_of_nil|].
  rewrite fmap_app. simpl. intros [Hnd [Hdis _]]%NoDup_app Hin.
  rewrite assign_snoc. apply elem_of_app in Hin as [Hin|Hin].
  - rewrite lookup_insert_ne; [by apply IH|].
    intros ->. apply (Hdis q); [|by left].
    apply list_elem_of_fmap. by exists (q, v).
  - apply list_elem_of_singleton in Hin. injection Hin as -> ->.
    by rewrite lookup_insert_eq.
Qed.

Lemma write_list_levels ws w :
  pin_levels (board (write_list ws w)) = assign ws (pin_levels (board w)).
Proof.
  induction ws as [|[p l] ws IH] using rev_ind; [done|].
  rewrite write_list_snoc, assign_snoc. simpl. by rewrite IH.
Qed.

(** ** setup() *)

Lemma setup_board w :
  pin_modes (board (setup w)) = assign setup_modes (pin_modes (board w))
  ∧ pin_levels (board (setup w)) = pin_levels (board w)
  ∧ emitted setup w = (λ pm, EvPinMode pm.1 pm.2) <$> setup_modes.
Proof.
  split; [|split]; [reflexivity..|].
  apply emitted_app. unfold setup, for_each. cbn.
  by rewrite <- !app_assoc.
Qed.

Lemma setup_modes_distinct : NoDup setup_modes.*1.
Proof. apply (bool_decide_unpack _). by vm_compute. Qed.

(** X1: whatever the state before, [setup] leaves both scores at zero,
    both flags cleared and the wiring of the two players in place; it
    configures each of the 28 display pins as an output and the two
    button pins as inputs, in 30 [pinMode] calls and nothing else: no
    other pin's direction changes (RESET among them) and no level is
    driven. *)
Theorem setup_establishes w :
  p1 (setup w) = p1_init ∧ p2 (setup w) = p2_init
  ∧ winner_found (setup w) = false ∧ p1_is_winner (setup w) = false
  ∧ Forall (λ pin, pin_modes (board (setup w)) !! pin = Some OUTPUT)
           (display_pins p1_init ++ display_pins p2_init)
  ∧ pin_modes (board (setup w)) !! P1_BUTTON = Some INPUT
  ∧ pin_modes (board (setup w)) !! P2_BUTTON = Some INPUT
  ∧ (∀ pin, pin ∉ display_pins p1_init ++ display_pins p2_init
                  ++ [P1_BUTTON; P2_BUTTON] →
       pin_modes (board (setup w)) !! pin = pin_modes (board w) !! pin)
  ∧ pin_levels (board (setup w)) = pin_levels (board w)
  ∧ length (emitted setup w) = 30%nat.
Proof.
  destruct (setup_board w) as (Hm & Hl & He).
  assert (∀ pin m, (pin, m) ∈ setup_modes →
                   pin_modes (board (setup w)) !! pin = Some m) as Hin.
  { intros pin m H. rewrite Hm.
    by apply assign_lookup_in; [apply setup_modes_distinct|]. }
  assert (∀ pin m, bool_decide ((pin, m) ∈ setup_modes) = true →
                   pin_modes (board (setup w)) !! pin = Some m) as Hdec.
  { intros pin m H. apply Hin. by apply bool_decide_eq_true in H. }
  split; [reflexivity|]. split; [reflexivity|].
  split; [reflexivity|]. split; [reflexivity|].
  split; [|split; [|split; [|split; [|split]]]].
  - repeat (apply Forall_cons; split; [by apply Hdec|]). constructor.
  - by apply Hdec.
  - by apply Hdec.
  - intros pin Hpin. rewrite Hm. apply assign_lookup_other.
    intros H. apply Hpin. clear Hpin. revert pin H.
    change (setup_modes.*1 ⊆ display_pins p1_init ++ display_pins p2_init
                              ++ [P1_BUTTON; P2_BUTTON]).
    apply (bool_decide_unpack _). by vm_compute.
  - exact Hl.
  - rewrite He. reflexivity.
Qed.

(** ** Wiring *)

Lemma wiring_is_fixed_aux w :
  reachable w → NoDup (all_pins w ++ control_pins).
Proof.
  intros Hr. destruct (reachable_invariant w Hr) as (_ & _ & _ & Hwire).
  destruct Hwire as (Ha & Hb & Hc & Hd).
  unfold all_pins, display_pins. cbn [player]. rewrite Ha, Hb, Hc, Hd.
  apply (bool_decide_unpack _). by vm_compute.
Qed.

(** X2: in every reachable world the pin tables of the two players are
    the ones [setup] assigned, so the 28 display pins are pairwise
    distinct and none of them is a button pin or the RESET pin. *)
Theorem wiring_is_fixed w :
  reachable w →
  d1_pins (p1 w) = d1_pins p1_init ∧ d2_pins (p1 w) = d2_pins p1_init
  ∧ d1_pins (p2 w) = d1_pins p2_init ∧ d2_pins (p2 w) = d2_pins p2_init
  ∧ NoDup (all_pins w ++ control_pins).
Proof.
  intros Hr. destruct (reachable_invariant w Hr) as (_ & _ & _ & Hwire).
  destruct Hwire as (Ha & Hb & Hc & Hd).
  repeat (split; [assumption|]).
  unfold all_pins, display_pins. cbn [player]. rewrite Ha, Hb, Hc, Hd.
  apply (bool_decide_unpack _). by vm_compute.
Qed.

Lemma wiring_is_fixed_witness :
  NoDup (all_pins (loop p1_press.1 p1_press.2 initial) ++ control_pins).
Proof.
  refine (proj2 (proj2 (proj2 (proj2
            (wiring_is_fixed (loop p1_press.1 p1_press.2 initial) _))))).
  apply reachable_loop, reachable_setup.
Defined.

(** ** The renderer, beyond the table *)

(** X3: rendering has no hidden state: a second call with the same
    argument emits the same seven writes and leaves every pin level as
    the first call left it, whatever the pin table. *)
Theorem render_is_idempotent r num w :
  (emitted (displayFirstDigit r num) (displayFirstDigit r num w)
   = emitted (displayFirstDigit r num) w
   ∧ pin_levels (board (displayFirstDigit r num (displayFirstDigit r num w)))
     = pin_levels (board (displayFirstDigit r num w)))
  ∧ (emitted (displaySecondDigit r num) (displaySecondDigit r num w)
     = emitted (displaySecondDigit r num) w
     ∧ pin_levels (board (displaySecondDigit r num (displaySecondDigit r num w)))
       = pin_levels (board (displaySecondDigit r num w))).
Proof.
  split; split.
  - rewrite !(emitted_app _ _ _ (displayFirstDigit_trace _ _ _)).
    by rewrite displayFirstDigit_player.
  - rewrite (displayFirstDigit_writes r num (displayFirstDigit r num w)).
    rewrite displayFirstDigit_player, write_list_levels.
    rewrite displayFirstDigit_writes, write_list_levels.
    apply assign_idemp.
  - rewrite !(emitted_app _ _ _ (displaySecondDigit_trace _ _ _)).
    by rewrite displaySecondDigit_player.
  - rewrite (displaySecondDigit_writes r num (displaySecondDigit r num w)).
    rewrite displaySecondDigit_player, write_list_levels.
    rewrite displaySecondDigit_writes, write_list_levels.
    apply assign_idemp.
Qed.

(** X4: a render call writes the seven pins of its own display and
    nothing else: the level of every other pin, the direction of every
    pin, both player records and both flags are as before. *)
Theorem render_touches_only_its_display r num w :
  (∀ q, q ∉ vec_to_list (d1_pins (player r w)) →
     pin_levels (board (displayFirstDigit r num w)) !! q
     = pin_levels (board w) !! q)
  ∧ (∀ q, q ∉ vec_to_list (d2_pins (player r w)) →
       pin_levels (board (displaySecondDigit r num w)) !! q
       = pin_levels (board w) !! q)
  ∧ (p1 (displayFirstDigit r num w) = p1 w
     ∧ p2 (displayFirstDigit r num w) = p2 w
     ∧ winner_found (displayFirstDigit r num w) = winner_found w
     ∧ p1_is_winner (displayFirstDigit r num w) = p1_is_winner w
     ∧ pin_modes (board (displayFirstDigit r num w)) = pin_modes (board w))
  ∧ (p1 (displaySecondDigit r num w) = p1 w
     ∧ p2 (displaySecondDigit r num w) = p2 w
     ∧ winner_found (displaySecondDigit r num w) = winner_found w
     ∧ p1_is_winner (displaySecondDigit r num w) = p1_is_winner w
     ∧ pin_modes (board (displaySecondDigit r num w)) = pin_modes (board w)).
Proof.
  split; [|split; [|split]].
  - intros q Hq. by apply (displayFirstDigit_levels_other r num w q _ eq_refl).
  - intros q Hq. by apply (displaySecondDigit_levels_other r num w q _ eq_refl).
  - apply displayFirstDigit_globals.
  - apply displaySecondDigit_globals.
Qed.

(** X5: for an argument outside [0,9] (the source passes -1 to blank a
    display, and a tens field of 10 or more falls here too) both render
    functions drive all seven lines of their display to OFF, and on a
    display with seven distinct pins every pin ends at the high level. *)
Theorem render_out_of_range_is_blank r num w :
  ¬ (0 ≤ num ≤ 9) →
  emitted (displayFirstDigit r num) w
    = (λ i, EvWrite (d1_pins (player r w) !!! i) HIGH) <$> segment_indices
  ∧ emitted (displaySecondDigit r num) w
    = (λ i, EvWrite (d2_pins (player r w) !!! i) HIGH) <$> segment_indices
  ∧ (NoDup (vec_to_list (d1_pins (player r w))) →
     ∀ i, pin_levels (board (displayFirstDigit r num w))
            !! (d1_pins (player r w) !!! i) = Some HIGH)
  ∧ (NoDup (vec_to_list (d2_pins (player r w))) →
     ∀ i, pin_levels (board (displaySecondDigit r num w))
            !! (d2_pins (player r w) !!! i) = Some HIGH).
Proof.
  intros H. split; [|split; [|split]].
  - rewrite (emitted_app _ _ _ (displayFirstDigit_trace r num w)).
    unfold digit_writes; simpl. by rewrite !segment_level_blank.
  - rewrite (emitted_app _ _ _ (displaySecondDigit_trace r num w)).
    unfold digit_writes; simpl. by rewrite !segment_level_blank.
  - intros Hnd i.
    rewrite (displayFirstDigit_levels_in r num w i _ eq_refl Hnd).
    by rewrite segment_level_blank.
  - intros Hnd i.
    rewrite (displaySecondDigit_levels_in r num w i _ eq_refl Hnd).
    by rewrite segment_level_blank.
Qed.

Lemma render_out_of_range_is_blank_witness :
  emitted (displayFirstDigit RefP1 (-1)) initial
  = (λ i, EvWrite (d1_pins (player RefP1 initial) !!! i) HIGH)
      <$> segment_indices.
Proof.
  refine (proj1 (render_out_of_range_is_blank RefP1 (-1) initial _)). lia.
Defined.

(** X6: for every digit of [0,9] other than 1 the seven levels the
    renderer drives are the row of that digit in the table of the header
    comment of the source ("7 Seg Common Anode Output", 0 = low). *)
Theorem render_follows_header_comment d :
  0 ≤ d ≤ 9 → d ≠ 1 →
  header_comment_table !! Z.to_nat d = Some (rendered_bits d).
Proof.
  intros Hd H1.
  destruct (digit_cases d Hd) as [->|[->|[->|[->|[->|[->|[->|[->|[->| ->]]]]]]]]];
    try done; vm_compute; reflexivity.
Qed.

Lemma render_follows_header_comment_witness :
  header_comment_table !! Z.to_nat 8 = Some (rendered_bits 8).
Proof. apply render_follows_header_comment; lia. Defined.

(** ** The button handler, beyond the score *)

Lemma handle_button_modes r e w :
  pin_modes (board (handle_button r e w))
  = (if is_hold r e w && bool_decide (held_ms r e w >= BUTTON_HOLD_MS)
     then <[RESET := OUTPUT]> (pin_modes (board w))
     else pin_modes (board w)).
Proof. button_cases r e w; try done; lia. Qed.

(** X7: after every call both [button_state] and [prev_button_state]
    hold the level just read, so the next call compares against this
    sample; the start time is overwritten, with the current clock, on a
    press edge and on no other sample; the pin tables never change. *)
Theorem button_history r e w :
  button_state (player r (handle_button r e w)) = digitalRead e (button_pin r)
  ∧ prev_button_state (player r (handle_button r e w))
    = digitalRead e (button_pin r)
  ∧ start (player r (handle_button r e w))
    = (if is_press r e w then millis e else start (player r w))
  ∧ d1_pins (player r (handle_button r e w)) = d1_pins (player r w)
  ∧ d2_pins (player r (handle_button r e w)) = d2_pins (player r w).
Proof.
  destruct (handle_button_state r e w) as (Ha & Hb & Hc).
  destruct (handle_button_pins r e w) as [Hd He]. done.
Qed.

(** X8: a call for one player leaves the other player's record, both
    winner flags and the level of every pin unchanged, and changes the
    direction of no pin other than RESET. *)
Theorem handle_button_frame r e w :
  player (other r) (handle_button r e w) = player (other r) w
  ∧ winner_found (handle_button r e w) = winner_found w
  ∧ p1_is_winner (handle_button r e w) = p1_is_winner w
  ∧ pin_levels (board (handle_button r e w)) = pin_levels (board w)
  ∧ (∀ pin, pin ≠ RESET →
       pin_modes (board (handle_button r e w)) !! pin
       = pin_modes (board w) !! pin).
Proof.
  split; [apply handle_button_other|].
  destruct (handle_button_flags r e w) as [Ha Hb].
  split; [done|]. split; [done|]. split; [apply handle_button_board|].
  intros pin Hpin. rewrite handle_button_modes.
  destruct (is_hold r e w && bool_decide (held_ms r e w >= BUTTON_HOLD_MS));
    [by rewrite lookup_insert_ne|done].
Qed.

(** X9: a press edge records the clock, blocks for exactly 200 ms and
    does nothing else (no digit changes, no reset); a sample that reads
    the button up, released or idle, performs no output action. *)
Theorem press_blocks_release_is_silent r e w :
  (is_press r e w = true →
     emitted (handle_button r e) w = [EvDelay 200]
     ∧ start (player r (handle_button r e w)) = millis e
     ∧ digits (player r (handle_button r e w)) = digits (player r w)
     ∧ pin_modes (board (handle_button r e w)) = pin_modes (board w))
  ∧ (digitalRead e (button_pin r) = false →
     emitted (handle_button r e) w = []
     ∧ pin_modes (board (handle_button r e w)) = pin_modes (board w)).
Proof.
  split.
  - intros Hp.
    rewrite (emitted_app _ _ _ (handle_button_trace r e w)).
    destruct (handle_button_state r e w) as (_ & _ & ->).
    rewrite handle_button_modes. unfold button_events, digits.
    destruct (handle_button_digits r e w) as [-> ->].
    { unfold is_press, is_release in *.
      destruct (digitalRead e (button_pin r)); [done|discriminate]. }
    rewrite Hp. unfold is_press, is_hold in *.
    destruct (digitalRead e (button_pin r)),
      (prev_button_state (player r w)); try discriminate. done.
  - intros Hd.
    rewrite (emitted_app _ _ _ (handle_button_trace r e w)).
    rewrite handle_button_modes.
    unfold button_events, is_press, is_hold. by rewrite Hd.
Qed.

(** X10: within a cycle the digits of a player change only if its own
    button is sampled at a release edge while no winner has been found. *)
Theorem digits_change_only_on_release r e1 e2 w :
  digits (player r (loop e1 e2 w)) ≠ digits (player r w) →
  is_release r (sel r e1 e2) w = true ∧ winner_found w = false.
Proof.
  intros Hne. rewrite loop_player in Hne.
  destruct (is_release r (sel r e1 e2) w) eqn:Hrel,
    (winner_found w) eqn:Hw; try done; exfalso; apply Hne; unfold digits;
    destruct (handle_button_digits r (sel r e1 e2) w) as [-> ->];
    rewrite ?Hrel, ?Hw; done.
Qed.

Lemma digits_change_only_on_release_witness :
  is_release RefP1 (sel RefP1 idle.1 idle.2) w_20_0 = true
  ∧ winner_found w_20_0 = false.
Proof.
  apply (digits_change_only_on_release RefP1 idle.1 idle.2 w_20_0).
  vm_compute. discriminate.
Defined.

(** X11: the two handlers do not interfere: the record a player has
    after a cycle is the one its own handler computes from the state at
    the start of the cycle, whatever the other button does and whatever
    the win check or the blink of that cycle does. *)
Theorem players_advance_independently r e1 e2 w :
  player r (loop e1 e2 w) = player r (handle_button r (sel r e1 e2) w)
  ∧ (∀ e1' e2', sel r e1' e2' = sel r e1 e2 →
       player r (loop e1' e2' w) = player r (loop e1 e2 w)).
Proof.
  split; [apply loop_player|].
  intros e1' e2' He. rewrite !loop_player. by rewrite He.
Qed.

Lemma press_blocks_release_is_silent_witness :
  emitted (handle_button RefP1 (env true false 0)) initial = [EvDelay 200].
Proof.
  refine (proj1 (proj1 (press_blocks_release_is_silent RefP1 (env true false 0)
                          initial) _)).
  reflexivity.
Defined.

(** ** The win check, beyond the rule *)

Lemma win_conditions_apart w :
  p1_win_condition w && p2_win_condition w = false.
Proof.
  unfold p1_win_condition, p2_win_condition.
  generalize (score (p1 w)) (score (p2 w)). intros a b.
  repeat case_bool_decide; simpl; try done; lia.
Qed.

(** X12: whatever the four digit fields hold, overflowing values
    included, the two conditions of the win check are never both true,
    so the order in which the players are checked never decides a
    winner. *)
Theorem win_check_order_is_immaterial w :
  p1_win_condition w && p2_win_condition w = false
  ∧ (winner_found w = false → p1_is_winner w = false →
     (p2_win_condition w = true → declared (check_win w) = Some RefP2)
     ∧ (p1_win_condition w = true → declared (check_win w) = Some RefP1)).
Proof.
  pose proof (win_conditions_apart w) as Hx. split; [done|].
  intros Hw Hp. unfold check_win, declared.
  destruct (p1_win_condition w), (p2_win_condition w); try done;
    simpl; rewrite ?Hw, ?Hp; done.
Qed.

(** The flags record a win that the 8-bit scores justify. *)
Lemma winner_justified w :
  reachable w → winner_found w = true →
  if p1_is_winner w then p1_win_condition w = true
  else p2_win_condition w = true.
Proof.
  induction 1 as [|e1 e2 w Hr IH]; [discriminate|].
  intros Hw'.
  assert (∀ X Y, p1 X = p1 Y → p2 X = p2 Y →
                 p1_win_condition X = p1_win_condition Y
                 ∧ p2_win_condition X = p2_win_condition Y) as Hsame.
  { intros X Y Ha Hb. unfold p1_win_condition, p2_win_condition.
    by rewrite Ha, Hb. }
  destruct (winner_found w) eqn:Hw.
  - destruct (loop_flags_won e1 e2 w Hw) as [_ ->].
    specialize (IH eq_refl).
    pose proof (loop_player RefP1 e1 e2 w) as L1.
    pose proof (loop_player RefP2 e1 e2 w) as L2.
    assert (score (p1 (loop e1 e2 w)) = score (p1 w)
            ∧ score (p2 (loop e1 e2 w)) = score (p2 w)) as [S1 S2].
    { unfold score.
      change (p1 (loop e1 e2 w)) with (player RefP1 (loop e1 e2 w)).
      change (p2 (loop e1 e2 w)) with (player RefP2 (loop e1 e2 w)).
      rewrite L1, L2.
      destruct (handle_button_digits RefP1 (sel RefP1 e1 e2) w) as [-> ->];
        [by rewrite Hw, andb_false_r|].
      destruct (handle_button_digits RefP2 (sel RefP2 e1 e2) w) as [-> ->];
        [by rewrite Hw, andb_false_r|]. done. }
    unfold p1_win_condition, p2_win_condition in *. by rewrite S1, S2.
  - destruct (loop_open_state e1 e2 w Hr Hw) as (Hl & Ha & Hb & _).
    rewrite Hl in *. clear IH Hl.
    destruct (check_win_frame (polled e1 e2 w)) as (F1 & F2 & _).
    destruct (Hsame _ _ F1 F2) as [-> ->].
    revert Hw'. unfold check_win.
    destruct (p1_win_condition (polled e1 e2 w)) eqn:C1; [done|].
    destruct (p2_win_condition (polled e1 e2 w)) eqn:C2;
      cbn [set_winner_found set_p1_is_winner winner_found p1_is_winner].
    + rewrite Hb. done.
    + rewrite Ha. discriminate.
Qed.

Lemma andb_true_iff_if (c : bool) a1 b1 a2 b2 :
  (if c then a1 && b1 = true else a2 && b2 = true) →
  if c then a1 = true ∧ b1 = true else a2 = true ∧ b2 = true.
Proof. destruct c; by rewrite andb_true_iff. Qed.

(** X13: in every reachable world with a winner, the 8-bit score of the
    declared winner is at least 21 and more than the other score plus
    one: the flags are never set without the condition that sets them,
    and the frozen scores keep it true. *)
Theorem winner_meets_win_condition w :
  reachable w → winner_found w = true →
  (p1_is_winner w = true →
     score (p1 w) >= 21 ∧ score (p1 w) > score (p2 w) + 1)
  ∧ (p1_is_winner w = false →
     score (p2 w) >= 21 ∧ score (p2 w) > score (p1 w) + 1).
Proof.
  intros Hr Hw. pose proof (winner_justified w Hr Hw) as H.
  unfold p1_win_condition, p2_win_condition, UP_TO_SCORE in H.
  apply andb_true_iff_if in H.
  destruct (p1_is_winner w); split; intros Hx; try discriminate;
    destruct H as [H1 H2]; by apply bool_decide_eq_true in H1, H2.
Qed.

Lemma winner_meets_win_condition_witness :
  score (p1 w_p1_won) >= 21 ∧ score (p1 w_p1_won) > score (p2 w_p1_won) + 1.
Proof.
  refine (proj1 (winner_meets_win_condition w_p1_won _ _) _).
  - apply reachable_run, reachable_setup.
  - vm_compute. reflexivity.
  - vm_compute. reflexivity.
Defined.

(** X14: while both combined scores are below 21 no reachable world has
    a winner. *)
Theorem no_winner_below_21 w :
  reachable w → combined (p1 w) < 21 → combined (p2 w) < 21 →
  winner_found w = false.
Proof.
  intros Hr H1 H2.
  destruct (reachable_invariant w Hr)
    as (Hd1%digits_ok_combined & Hd2%digits_ok_combined & _).
  destruct (winner_found w) eqn:Hw; [|done].
  pose proof (winner_justified w Hr Hw) as H.
  unfold p1_win_condition, p2_win_condition, UP_TO_SCORE in H.
  rewrite (score_small (p1 w)), (score_small (p2 w)) in H by lia.
  destruct (p1_is_winner w); apply andb_true_iff in H as [Ha _];
    apply bool_decide_eq_true in Ha; lia.
Qed.

Lemma no_winner_below_21_witness : winner_found w_20_0 = false.
Proof.
  apply no_winner_below_21.
  - apply reachable_run, reachable_setup.
  - vm_compute. reflexivity.
  - vm_compute. reflexivity.
Defined.

(** X15: a win is final: over any further sequence of cycles, whatever
    the buttons and the clock do, [winner_found] stays set, the winner
    stays the same and all four digits keep their values. *)
Theorem win_is_final es w :
  winner_found w = true →
  winner_found (run es w) = true
  ∧ p1_is_winner (run es w) = p1_is_winner w
  ∧ (∀ r, digits (player r (run es w)) = digits (player r w)).
Proof.
  revert w. induction es as [|[e1 e2] es IH]; intros w Hw; [done|].
  rewrite run_cons. cbn [fst snd].
  destruct (loop_flags_won e1 e2 w Hw) as [Hw' Hp'].
  destruct (IH _ Hw') as (-> & -> & Hd). split; [done|]. split; [done|].
  intros r. rewrite Hd, loop_player. unfold digits.
  destruct (handle_button_digits r (sel r e1 e2) w) as [-> ->]; [|done].
  by rewrite Hw, andb_false_r.
Qed.

Lemma win_is_final_witness :
  winner_found (run (repeat_cycles 3 both_score) w_p1_won) = true.
Proof.
  refine (proj1 (win_is_final (repeat_cycles 3 both_score) w_p1_won _)).
  vm_compute. reflexivity.
Defined.

(** ** One cycle of the loop, as a whole *)

Lemma loop_open_emitted e1 e2 w :
  winner_found w = false →
  emitted (loop e1 e2) w
  = score_writes (p1 w) ++ score_writes (p2 w)
    ++ button_events RefP1 e1 w ++ button_events RefP2 e2 w.
Proof.
  intros Hw. apply emitted_app. rewrite (loop_flags_open e1 e2 w Hw).
  destruct (check_win_frame (polled e1 e2 w)) as (_ & _ & ->).
  apply polled_trace.
Qed.

(** X16: a cycle that starts without a winner performs the 28 render
    writes and the actions of the two handlers and nothing more; in
    particular the cycle in which the win is detected does not blink,
    the blink starts with the next cycle. *)
Theorem open_cycle_has_no_blink e1 e2 w :
  winner_found w = false →
  emitted (loop e1 e2) w
  = score_writes (p1 w) ++ score_writes (p2 w)
    ++ button_events RefP1 e1 w ++ button_events RefP2 e2 w
  ∧ (winner_found (loop e1 e2 w) = true →
     ∀ e1' e2',
       loop e1' e2' (loop e1 e2 w)
       = blinkWinner (winner (loop e1 e2 w)) (polled e1' e2' (loop e1 e2 w))).
Proof.
  intros Hw. split; [by apply loop_open_emitted|].
  intros Hw' e1' e2'. by apply loop_won.
Qed.

Lemma open_cycle_has_no_blink_witness :
  emitted (loop idle.1 idle.2) w_20_0
  = score_writes (p1 w_20_0) ++ score_writes (p2 w_20_0)
    ++ button_events RefP1 idle.1 w_20_0 ++ button_events RefP2 idle.2 w_20_0.
Proof.
  refine (proj1 (open_cycle_has_no_blink idle.1 idle.2 w_20_0 _)).
  vm_compute. reflexivity.
Defined.

Lemma blinkWinner_levels_own r w i :
  NoDup (display_pins (player r w)) →
  pin_levels (board (blinkWinner r w)) !! (d1_pins (player r w) !!! i)
  = Some (segment_level (d1_num (player r w)) i)
  ∧ pin_levels (board (blinkWinner r w)) !! (d2_pins (player r w) !!! i)
    = Some (segment_level (d2_num (player r w)) i).
Proof.
  unfold display_pins. intros (H1 & H12 & H2)%NoDup_app.
  pose proof (vlookup_listed (d1_pins (player r w)) i) as I1.
  assert (d1_pins (player r w) !!! i ∉ vec_to_list (d2_pins (player r w)))
    by (by apply H12).
  unfold blinkWinner. cbv zeta. rewrite !delay_levels. frame. split.
  - rewrite (displaySecondDigit_levels_other _ _ _ _ (d2_pins (player r w)));
      [|frame; reflexivity|done].
    apply displayFirstDigit_levels_in; [frame; reflexivity|done].
  - apply displaySecondDigit_levels_in; [frame; reflexivity|done].
Qed.

(** X17: at the end of every cycle from a reachable world, with or
    without winner, each pin of each of the four displays carries the
    level of its segment for the digit its player had when the cycle
    started; a point scored in the cycle is shown by the next cycle. *)
Theorem displays_show_cycle_start_digits w e1 e2 r i :
  reachable w →
  pin_levels (board (loop e1 e2 w)) !! (d1_pins (player r w) !!! i)
  = Some (segment_level (d1_num (player r w)) i)
  ∧ pin_levels (board (loop e1 e2 w)) !! (d2_pins (player r w) !!! i)
    = Some (segment_level (d2_num (player r w)) i).
Proof.
  intros Hr.
  pose proof (reachable_invariant w Hr) as (_ & _ & _ & Hwire).
  pose proof (wiring_distinct w Hwire) as Hnd.
  destruct (winner_found w) eqn:Hw.
  - rewrite (loop_won e1 e2 w Hw).
    destruct (polled_player_frozen (winner w) e1 e2 w Hw) as (Ha & Hb & Hc & Hd).
    destruct (decide (r = winner w)) as [->|Hne].
    + rewrite <- Ha, <- Hb, <- Hc, <- Hd. apply blinkWinner_levels_own.
      unfold display_pins. rewrite Ha, Hb.
      unfold all_pins in Hnd. apply NoDup_app in Hnd as (H1 & _ & H2).
      unfold winner. by destruct (p1_is_winner w).
    + assert (r = loser w) as ->.
      { unfold loser. destruct r, (winner w); done. }
      assert (∀ q, q ∈ display_pins (player (loser w) w) →
                   pin_levels (board (blinkWinner (winner w) (polled e1 e2 w))) !! q
                   = pin_levels (board (rendered w)) !! q) as Hkeep.
      { intros q Hq. rewrite blinkWinner_levels_other, polled_levels; [done|].
        unfold display_pins. rewrite Ha, Hb. by apply loser_pins_apart. }
      rewrite !Hkeep.
      * by apply rendered_levels.
      * unfold display_pins. apply elem_of_app. right. apply vlookup_listed.
      * unfold display_pins. apply elem_of_app. left. apply vlookup_listed.
  - rewrite (loop_flags_open e1 e2 w Hw).
    destruct (check_win_frame (polled e1 e2 w)) as (_ & _ & ->).
    rewrite polled_levels. by apply rendered_levels.
Qed.

Lemma displays_show_cycle_start_digits_witness :
  pin_levels (board (loop idle.1 idle.2 w_20_0))
    !! (d2_pins (player RefP1 w_20_0) !!! 0%fin)
  = Some (segment_level (d2_num (player RefP1 w_20_0)) 0%fin).
Proof.
  refine (proj2 (displays_show_cycle_start_digits w_20_0 idle.1 idle.2
                   RefP1 0%fin _)).
  apply reachable_run, reachable_setup.
Defined.

Lemma displayFirstDigit_modes r n w :
  pin_modes (board (displayFirstDigit r n w)) = pin_modes (board w).
Proof. apply displayFirstDigit_globals. Qed.
Lemma displaySecondDigit_modes r n w :
  pin_modes (board (displaySecondDigit r n w)) = pin_modes (board w).
Proof. apply displaySecondDigit_globals. Qed.
Lemma delay_modes ms w : pin_modes (board (delay ms w)) = pin_modes (board w).
Proof. reflexivity. Qed.

(** Pushing [pin_modes] through the renderer and the pauses. *)
Ltac modes_step :=
  match goal with
  | |- context [pin_modes (board (displayFirstDigit ?r ?n ?w))] =>
      rewrite (displayFirstDigit_modes r n w)
  | |- context [pin_modes (board (displaySecondDigit ?r ?n ?w))] =>
      rewrite (displaySecondDigit_modes r n w)
  | |- context [pin_modes (board (delay ?ms ?w))] =>
      rewrite (delay_modes ms w)
  end.

Lemma rendered_modes w : pin_modes (board (rendered w)) = pin_modes (board w).
Proof. unfold rendered. cbv zeta. repeat modes_step. done. Qed.

Lemma blinkWinner_modes r w :
  pin_modes (board (blinkWinner r w)) = pin_modes (board w).
Proof. unfold blinkWinner. cbv zeta. repeat modes_step. done. Qed.

Lemma loop_modes_polled e1 e2 w :
  pin_modes (board (loop e1 e2 w)) = pin_modes (board (polled e1 e2 w)).
Proof.
  rewrite loop_unfold. cbv zeta.
  destruct (negb (winner_found (polled e1 e2 w))).
  - by destruct (check_win_frame (polled e1 e2 w)) as (_ & _ & ->).
  - destruct (p1_is_winner (polled e1 e2 w)); apply blinkWinner_modes.
Qed.

Lemma rendered_levels_other w q :
  q ∉ all_pins w →
  pin_levels (board (rendered w)) !! q = pin_levels (board w) !! q.
Proof.
  unfold all_pins, display_pins. rewrite !not_elem_of_app.
  intros [[HA HB] [HC HD]]. unfold rendered. cbv zeta.
  rewrite (displaySecondDigit_levels_other _ _ _ _ (d2_pins (player RefP2 w)));
    [|frame; reflexivity|done].
  rewrite (displayFirstDigit_levels_other _ _ _ _ (d1_pins (player RefP2 w)));
    [|frame; reflexivity|done].
  rewrite (displaySecondDigit_levels_other _ _ _ _ (d2_pins (player RefP1 w)));
    [|frame; reflexivity|done].
  by rewrite (displayFirstDigit_levels_other _ _ _ _ (d1_pins (player RefP1 w))).
Qed.

Lemma polled_pins r e1 e2 w :
  display_pins (player r (polled e1 e2 w)) = display_pins (player r w).
Proof.
  unfold display_pins. rewrite polled_player.
  by destruct (handle_button_pins r (sel r e1 e2) w) as [-> ->].
Qed.

Lemma loop_levels_other e1 e2 w q :
  q ∉ all_pins w →
  pin_levels (board (loop e1 e2 w)) !! q = pin_levels (board w) !! q.
Proof.
  intros Hq. rewrite <- (rendered_levels_other w q Hq), <- (polled_levels e1 e2 w).
  assert (∀ r, q ∉ display_pins (player r (polled e1 e2 w))) as Hr.
  { intros r. rewrite polled_pins. unfold all_pins in Hq.
    rewrite not_elem_of_app in Hq. destruct r; tauto. }
  rewrite loop_unfold. cbv zeta.
  destruct (negb (winner_found (polled e1 e2 w))).
  - by destruct (check_win_frame (polled e1 e2 w)) as (_ & _ & ->).
  - destruct (p1_is_winner (polled e1 e2 w));
      by apply blinkWinner_levels_other.
Qed.

(** X18: a cycle of the loop drives no pin outside the two players'
    display pins and changes the direction of no pin other than RESET. *)
Theorem loop_drives_only_displays e1 e2 w :
  (∀ q, q ∉ all_pins w →
     pin_levels (board (loop e1 e2 w)) !! q = pin_levels (board w) !! q)
  ∧ (∀ pin, pin ≠ RESET →
       pin_modes (board (loop e1 e2 w)) !! pin = pin_modes (board w) !! pin).
Proof.
  split; [intros q; apply loop_levels_other|].
  intros pin Hpin. rewrite loop_modes_polled. unfold polled.
  rewrite !handle_button_modes, rendered_modes.
  repeat match goal with
         | |- context [if ?c then _ else _] => destruct c
         end; by rewrite ?lookup_insert_ne.
Qed.

(** X19: in every reachable world no level has ever been driven on a
    button pin or on the RESET pin: the sketch only reads the buttons
    and only switches the direction of RESET. *)
Theorem control_pins_never_driven w :
  reachable w →
  Forall (λ q, pin_levels (board w) !! q = None) control_pins.
Proof.
  induction 1 as [|e1 e2 w Hr IH].
  - repeat (apply Forall_cons; split; [reflexivity|]). constructor.
  - pose proof (wiring_is_fixed_aux w Hr) as Hnd.
    rewrite Forall_forall in *. intros q Hq.
    rewrite loop_levels_other; [by apply IH|].
    apply NoDup_app in Hnd as (_ & Hdis & _). intros Hin.
    by apply (Hdis q).
Qed.

Lemma control_pins_never_driven_witness :
  Forall (λ q, pin_levels (board w_p1_won) !! q = None) control_pins.
Proof.
  apply control_pins_never_driven. apply reachable_run, reachable_setup.
Defined.

(** ** Time *)

Lemma start_in_range w r :
  reachable w → 0 ≤ start (player r w) < 2 ^ 32.
Proof.
  induction 1 as [|e1 e2 w Hr IH].
  - destruct r; closed_arith.
  - rewrite loop_player.
    destruct (handle_button_state r (sel r e1 e2) w) as (_ & _ & ->).
    destruct (is_press r (sel r e1 e2) w); [|done].
    unfold millis, u32. by apply Z.mod_pos_bound.
Qed.

(** X20: the hold time is measured correctly across the roll-over of
    the 32-bit millisecond counter: in a reachable world, if the true
    time is [d] milliseconds (less than 2^32) past the recorded start,
    the handler computes exactly [d], even when the counter has wrapped
    in between. *)
Theorem hold_time_survives_rollover w r e d :
  reachable w → 0 ≤ d < 2 ^ 32 →
  clock e = start (player r w) + d →
  held_ms r e w = d.
Proof.
  intros Hr Hd Hc. pose proof (start_in_range w r Hr) as Hs.
  unfold held_ms, millis, u32. rewrite Hc.
  rewrite Zminus_mod_idemp_l.
  replace (start (player r w) + d - start (player r w)) with d by lia.
  by apply Z.mod_small.
Qed.

Lemma hold_time_survives_rollover_witness :
  millis hold_after_wrap < start (player RefP1 w_pressed_before_wrap)
  ∧ held_ms RefP1 hold_after_wrap w_pressed_before_wrap = 3000.
Proof.
  split; [vm_compute; reflexivity|].
  apply hold_time_survives_rollover.
  - apply reachable_loop, reachable_setup.
  - lia.
  - vm_compute. reflexivity.
Defined.

Lemma blocked_ms_app evs1 evs2 :
  blocked_ms (evs1 ++ evs2) = blocked_ms evs1 + blocked_ms evs2.
Proof.
  unfold blocked_ms. induction evs1 as [|[] evs1 IH]; simpl; lia.
Qed.

Lemma blocked_ms_score_writes p : blocked_ms (score_writes p) = 0.
Proof. reflexivity. Qed.

Lemma blocked_ms_blank_writes p : blocked_ms (blank_writes p) = 0.
Proof. reflexivity. Qed.

Lemma blocked_ms_button_events r e w :
  blocked_ms (button_events r e w) = press_pause r e w.
Proof.
  unfold button_events, press_pause.
  destruct (is_press r e w); [reflexivity|].
  by destruct (is_hold r e w && bool_decide (held_ms r e w >= BUTTON_HOLD_MS)).
Qed.

(** X21: the time one cycle blocks is 200 ms for each button sampled at
    a press edge, plus 1000 ms when the cycle starts with a winner; a
    cycle with neither does not pause at all. *)
Theorem cycle_blocking_time e1 e2 w :
  blocked_ms (emitted (loop e1 e2) w)
  = press_pause RefP1 e1 w + press_pause RefP2 e2 w
    + (if winner_found w then 1000 else 0).
Proof.
  destruct (winner_found w) eqn:Hw.
  - rewrite (loop_won_emitted e1 e2 w Hw).
    rewrite !blocked_ms_app, !blocked_ms_score_writes, blocked_ms_blank_writes,
      !blocked_ms_button_events.
    cbn [blocked_ms foldr]. lia.
  - rewrite (loop_open_emitted e1 e2 w Hw).
    rewrite !blocked_ms_app, !blocked_ms_score_writes,
      !blocked_ms_button_events. lia.
Qed.

(** ** The reset line *)

(** X22: the trace of a cycle contains a reset exactly when one of the
    two buttons is sampled down, was down at the previous sample, and
    the clock is at least 3000 ms past its recorded start; the cycle
    then leaves the RESET pin configured as an output.  Nothing else in
    the loop fires the reset. *)
Theorem reset_iff_long_hold c w :
  (reset_event ∈ emitted (loop c.1 c.2) w
   ↔ ∃ r, pressed r c = true ∧ prev_button_state (player r w) = true
          ∧ u32 (time_at r c - start (player r w)) >= 3000)
  ∧ (reset_event ∈ emitted (loop c.1 c.2) w →
     pin_modes (board (loop c.1 c.2 w)) !! RESET = Some OUTPUT).
Proof.
  assert (reset_event ∈ emitted (loop c.1 c.2) w
          ↔ cycle_resets RefP1 c w ∨ cycle_resets RefP2 c w) as Hiff.
  { split; [apply reset_origin|].
    intros [H|H]; by eapply cycle_resets_emitted. }
  split.
  - rewrite Hiff, !cycle_resets_iff. unfold BUTTON_HOLD_MS. split.
    + intros [H|H]; eauto.
    + intros [[] H]; auto.
  - rewrite Hiff. intros Hfire.
    rewrite loop_modes_polled. unfold polled.
    rewrite (handle_button_modes RefP2), (handle_button_modes RefP1).
    rewrite rendered_modes.
    assert (∀ r W, player r W = player r w →
              cycle_resets r c w →
              is_hold r (sel r c.1 c.2) W
              && bool_decide (held_ms r (sel r c.1 c.2) W >= BUTTON_HOLD_MS)
              = true) as Hc.
    { intros r W HW (Hp & Hprev & Hms)%cycle_resets_iff.
      unfold is_hold, held_ms. rewrite HW.
      unfold pressed, time_at in *. rewrite Hp, Hprev.
      by rewrite bool_decide_true. }
    destruct Hfire as [H1|H2].
    + pose proof (Hc RefP1 (rendered w) (rendered_player RefP1 w) H1) as E.
      cbn [sel] in E. rewrite E.
      destruct (is_hold RefP2 c.2 _ && _); by rewrite lookup_insert_eq.
    + assert (player RefP2 (handle_button RefP1 c.1 (rendered w))
              = player RefP2 w) as HW.
      { rewrite <- (rendered_player RefP2 w).
        exact (handle_button_other RefP1 c.1 (rendered w)). }
      pose proof (Hc RefP2 _ HW H2) as E. cbn [sel] in E. rewrite E.
      by rewrite lookup_insert_eq.
Qed.

(** ** The blink, as a function *)

(** X23: for either player, [blinkWinner] blanks the player's two
    displays, pauses 500 ms, writes the two score digits and pauses
    500 ms; it changes no record, flag or pin direction and no level
    outside that player's display, and when it returns the display (with
    distinct pins) shows the score again, never the blank. *)
Theorem blink_restores_score r w :
  emitted (blinkWinner r) w
  = blank_writes (player r w) ++ [EvDelay 500]
    ++ score_writes (player r w) ++ [EvDelay 500]
  ∧ (p1 (blinkWinner r w) = p1 w ∧ p2 (blinkWinner r w) = p2 w
     ∧ winner_found (blinkWinner r w) = winner_found w
     ∧ p1_is_winner (blinkWinner r w) = p1_is_winner w)
  ∧ pin_modes (board (blinkWinner r w)) = pin_modes (board w)
  ∧ (∀ q, q ∉ display_pins (player r w) →
       pin_levels (board (blinkWinner r w)) !! q = pin_levels (board w) !! q)
  ∧ (NoDup (display_pins (player r w)) →
     ∀ i,
       pin_levels (board (blinkWinner r w)) !! (d1_pins (player r w) !!! i)
       = Some (segment_level (d1_num (player r w)) i)
       ∧ pin_levels (board (blinkWinner r w)) !! (d2_pins (player r w) !!! i)
         = Some (segment_level (d2_num (player r w)) i)).
Proof.
  split; [|split; [|split; [|split]]].
  - apply emitted_app. rewrite blinkWinner_trace. reflexivity.
  - apply blinkWinner_globals.
  - apply blinkWinner_modes.
  - intros q. apply blinkWinner_levels_other.
  - intros Hnd i. by apply blinkWinner_levels_own.
Qed.

(** ** Scoring and the clock *)

(** X24: a release edge without winner scores its point whatever the
    clock reads and however long the button was held (a hold past the
    reset threshold included): the new digits depend on the old digits
    only, and the recorded start is left as it was. *)
Theorem release_scores_whatever_the_clock r e w :
  is_release r e w = true → winner_found w = false →
  digits (player r (handle_button r e w)) = bump (digits (player r w))
  ∧ start (player r (handle_button r e w)) = start (player r w)
  ∧ emitted (handle_button r e) w = [].
Proof.
  intros Hrel Hw. unfold is_release in Hrel.
  apply andb_true_iff in Hrel as [Hd%negb_true_iff Hp].
  destruct (handle_button_release r e w Hd Hp Hw) as [_ Hb].
  destruct (handle_button_state r e w) as (_ & _ & Hs).
  split; [exact Hb|]. split.
  - rewrite Hs. unfold is_press. by rewrite Hd.
  - rewrite (emitted_app _ _ _ (handle_button_trace r e w)).
    unfold button_events, is_press, is_hold. by rewrite Hd.
Qed.

Lemma release_scores_whatever_the_clock_witness :
  digits (player RefP1 (handle_button RefP1 (env false false 9999) w_20_0))
  = bump (digits (player RefP1 w_20_0)).
Proof.
  refine (proj1 (release_scores_whatever_the_clock RefP1
                   (env false false 9999) w_20_0 _ _)).
  - vm_compute. reflexivity.
  - vm_compute. reflexivity.
Defined.
